(** * Credential and session core of the legacy-app-secure service

    A shallow embedding of [utils.py] and [models.py] of the secure variant,
    followed by the properties of the specification that were checked on it.

    Conventions of the embedding:
    - a Python [str] is the list of its code points ([ord] is the identity);
    - a [datetime] is a number of microseconds since 0001-01-01T00:00:00;
    - a function that logs, touches the database or raises runs in the
      state-and-exception monad [M]: effects performed before a [raise] stay
      visible to the handler, as in Python;
    - what the program reads from its environment (the clock, the random
      source, a failure of the database driver) is an explicit argument. *)

From Stdlib Require Import ZArith List Bool String Ascii Lia.
Import ListNotations.
Local Open Scope Z_scope.

(* ===================================================================== *)
(** * Python values, exceptions and the effect monad                      *)
(* ===================================================================== *)

Module Py.

Definition str := list Z.

Definition len (s : str) : Z := Z.of_nat (List.length s).

Definition ord (a : ascii) : Z := Z.of_N (N_of_ascii a).

(** [lit "abc"] is the Python literal ['abc']. *)
Fixpoint lit (s : string) : str :=
  match s with
  | EmptyString => []
  | String a s' => ord a :: lit s'
  end.

Fixpoint str_eqb (a b : str) : bool :=
  match a, b with
  | [], [] => true
  | x :: a', y :: b' => (x =? y) && str_eqb a' b'
  | _, _ => false
  end.

(** [not s] for a string. *)
Definition is_empty (s : str) : bool :=
  match s with [] => true | _ => false end.

(** [c in chars] for a one-character string [c]. *)
Definition char_in (c : Z) (chars : str) : bool := existsb (Z.eqb c) chars.

(** [s[:n]]; a negative bound counts from the end. *)
Definition slice_to (s : str) (n : Z) : str :=
  if n <? 0 then firstn (Z.to_nat (len s + n)) s else firstn (Z.to_nat n) s.

(** [s.replace(c, '')] for a one-character [c]. *)
Definition remove_char (c : Z) (s : str) : str :=
  filter (fun x => negb (x =? c)) s.

(** [str.isspace] on one code point, the set [str.split()] separates on. *)
Definition isspace (c : Z) : bool :=
  ((9 <=? c) && (c <=? 13)) || ((28 <=? c) && (c <=? 32))
  || (c =? 133) || (c =? 160) || (c =? 5760)
  || ((8192 <=? c) && (c <=? 8202))
  || (c =? 8232) || (c =? 8233) || (c =? 8239) || (c =? 8287) || (c =? 12288).

(** [s.split()]: the maximal runs of non-whitespace, in order.  [cur] is
    the run being read, most recent character first. *)
Fixpoint split_from (cur : str) (s : str) : list str :=
  match s with
  | [] => match cur with [] => [] | _ => [rev cur] end
  | c :: s' =>
      if isspace c
      then match cur with
           | [] => split_from [] s'
           | _ => rev cur :: split_from [] s'
           end
      else split_from (c :: cur) s'
  end.

Definition split (s : str) : list str := split_from [] s.

(** [sep.join(words)]. *)
Fixpoint join (sep : str) (words : list str) : str :=
  match words with
  | [] => []
  | [w] => w
  | w :: rest => w ++ sep ++ join sep rest
  end.

(** The exception classes the code raises or catches. *)
Inductive exn :=
| Exception
| ValueError
| OverflowError
| Sqlite3Error
| IntegrityError
| OperationalError
| VerificationError
| VerifyMismatchError
| InvalidHash
| HashingError.

Definition exn_eqb (a b : exn) : bool :=
  match a, b with
  | Exception, Exception | ValueError, ValueError
  | OverflowError, OverflowError | Sqlite3Error, Sqlite3Error
  | IntegrityError, IntegrityError | OperationalError, OperationalError
  | VerificationError, VerificationError
  | VerifyMismatchError, VerifyMismatchError
  | InvalidHash, InvalidHash | HashingError, HashingError => true
  | _, _ => false
  end.

(** Direct base class. *)
Definition base (e : exn) : option exn :=
  match e with
  | Exception => None
  | ValueError | OverflowError | Sqlite3Error
  | VerificationError | HashingError => Some Exception
  | IntegrityError | OperationalError => Some Sqlite3Error
  | VerifyMismatchError => Some VerificationError
  | InvalidHash => Some ValueError
  end.

(** [isinstance(e, cls)], which is what an [except cls:] arm tests. *)
Definition isinstance (e cls : exn) : bool :=
  exn_eqb e cls ||
  match base e with
  | None => false
  | Some b =>
      exn_eqb b cls ||
      match base b with
      | None => false
      | Some b' => exn_eqb b' cls
      end
  end.

Inductive outcome (A : Type) :=
| Return (a : A)
| Raise (e : exn).
Arguments Return {A} a.
Arguments Raise {A} e.

(** A computation over a state [S] that returns or raises. *)
Definition M (S A : Type) : Type := S -> outcome A * S.

Definition ret {S A} (a : A) : M S A := fun s => (Return a, s).

Definition raise {S A} (e : exn) : M S A := fun s => (Raise e, s).

Definition bind {S A B} (m : M S A) (k : A -> M S B) : M S B :=
  fun s =>
    match m s with
    | (Return a, s') => k a s'
    | (Raise e, s') => (Raise e, s')
    end.

Definition get {S} : M S S := fun s => (Return s, s).

Definition modify {S} (f : S -> S) : M S unit := fun s => (Return tt, f s).

(** [try: body / except ...:]; [handlers e = None] when no arm matches
    and the exception propagates. *)
Definition try_except {S A} (body : M S A) (handlers : exn -> option (M S A))
  : M S A :=
  fun s =>
    match body s with
    | (Return a, s') => (Return a, s')
    | (Raise e, s') =>
        match handlers e with
        | Some h => h s'
        | None => (Raise e, s')
        end
    end.

(** A value computed outside the monad that may have raised. *)
Definition of_outcome {S A} (o : outcome A) : M S A := fun s => (o, s).

(** Run a computation on one component of a pair state. *)
Definition on_fst {S T A} (m : M S A) : M (S * T) A :=
  fun st =>
    match m (fst st) with
    | (o, s') => (o, (s', snd st))
    end.

End Py.

Import Py.

Declare Scope py_scope.
Delimit Scope py_scope with py.
Notation "x <- c ;; k" := (bind c (fun x => k))
  (at level 61, c at next level, right associativity) : py_scope.
Notation "c ;; k" := (bind c (fun _ => k))
  (at level 61, right associativity) : py_scope.
Local Open Scope py_scope.

(* ===================================================================== *)
(** * The [logging] module                                                *)
(* ===================================================================== *)

Inductive level := DEBUG | INFO | WARNING | ERROR.

(** A log call, with the text of its message before interpolation. *)
Record log_record := { lvl : level; msg : string }.

(* ===================================================================== *)
(** * The [re] module, as far as [validate_email] uses it                 *)
(* ===================================================================== *)

Module Re.

Inductive class_item :=
| Range (lo hi : Z)
| One (c : Z).

Definition in_item (c : Z) (i : class_item) : bool :=
  match i with
  | Range lo hi => (lo <=? c) && (c <=? hi)
  | One x => c =? x
  end.

Definition in_class (cls : list class_item) (c : Z) : bool :=
  existsb (in_item c) cls.

Inductive item :=
| Bol                                       (* ^ *)
| Eol                                       (* $ *)
| Chr (c : Z)                               (* a literal character *)
| Rep (cls : list class_item) (lo : nat).   (* [cls]{lo,} ; + is {1,} *)

(** [[cls]{lo,}] followed by the rest of the pattern [k]; [pos] is the
    offset of [s] in the subject. *)
Fixpoint rep (cls : list class_item) (lo : nat)
         (k : nat -> str -> bool) (pos : nat) (s : str) : bool :=
  match s with
  | [] => match lo with O => k pos [] | S _ => false end
  | c :: s' =>
      match lo with
      | O => (in_class cls c && rep cls O k (S pos) s') || k pos s
      | S lo' => in_class cls c && rep cls lo' k (S pos) s'
      end
  end.

(** Does pattern [p] match at offset [pos], where the subject continues
    with [s]?  Without MULTILINE, [^] holds at offset 0 only and [$] holds
    at the end of the subject and just before a newline that ends it. *)
Fixpoint match_here (p : list item) (pos : nat) (s : str) : bool :=
  match p with
  | [] => true
  | Bol :: p' => Nat.eqb pos 0 && match_here p' pos s
  | Eol :: p' =>
      match s with
      | [] => match_here p' pos s
      | [10] => match_here p' pos s
      | _ => false
      end
  | Chr c :: p' =>
      match s with
      | x :: s' => (x =? c) && match_here p' (S pos) s'
      | [] => false
      end
  | Rep cls lo :: p' => rep cls lo (match_here p') pos s
  end.

(** [bool(re.match(p, s))]. *)
Definition match_ (p : list item) (s : str) : bool := match_here p 0 s.

End Re.

(* ===================================================================== *)
(** * The world the program runs in                                       *)
(* ===================================================================== *)

Record user_row := {
  u_id : Z;
  u_username : str;
  u_password_hash : str;
  u_email : str;
  u_created_at : Z
}.

Record session_row := {
  s_id : Z;
  s_user_id : Z;
  s_token : str;
  s_created_at : Z;
  s_expires_at : Z
}.

(** The tables of [users.db], in rowid order, and the log written so far
    (most recent record first). *)
Record world := {
  users : list user_row;
  sessions : list session_row;
  log : list log_record
}.

Definition logger (l : level) (m : string) : M world unit :=
  fun w => (Return tt,
            {| users := users w; sessions := sessions w;
               log := {| lvl := l; msg := m |} :: log w |}).

(* ===================================================================== *)
(** * utils.py                                                            *)
(* ===================================================================== *)

(** The [argon2.PasswordHasher] object [ph].  The library is outside the
    repository: its three methods are taken as given.  [ph_hash salt p] is
    [ph.hash(p)] when the hasher draws [salt]; [ph_verify h p] returns or
    raises [VerifyMismatchError], [VerificationError] or [InvalidHash]. *)
Record PasswordHasher := {
  ph_hash : str -> str -> outcome str;
  ph_verify : str -> str -> outcome bool;
  ph_check_needs_rehash : str -> outcome bool
}.

Module Utils.

Definition hash_password (ph : PasswordHasher) (salt : str) (password : str)
  : M world str :=
  if is_empty password then raise ValueError
  else if 200 <? len password then raise ValueError
  else
    try_except
      (password_hash <- of_outcome (ph_hash ph salt password) ;;
       logger DEBUG "Password hashed successfully" ;;
       ret password_hash)
      (fun e =>
         if isinstance e Exception
         then Some (logger ERROR "Password hashing failed" ;; raise e)
         else None).

Definition verify_password (ph : PasswordHasher)
           (password_hash : str) (password : str) : M world bool :=
  if is_empty password_hash || is_empty password
  then logger WARNING "Empty password or hash provided for verification" ;;
       ret false
  else
    try_except
      (of_outcome (ph_verify ph password_hash password) ;;
       needs <- of_outcome (ph_check_needs_rehash ph password_hash) ;;
       (if needs : bool
        then logger INFO "Password hash needs rehashing with new parameters"
        else ret tt) ;;
       ret true)
      (fun e =>
         if isinstance e VerifyMismatchError
         then Some (logger DEBUG "Password verification failed - mismatch" ;;
                    ret false)
         else if isinstance e VerificationError || isinstance e InvalidHash
         then Some (logger WARNING "Invalid password hash format" ;;
                    ret false)
         else if isinstance e Exception
         then Some (logger ERROR
                      "Unexpected error during password verification" ;;
                    ret false)
         else None).

Definition lower := Re.Range (ord "a") (ord "z").
Definition upper := Re.Range (ord "A") (ord "Z").
Definition digit := Re.Range (ord "0") (ord "9").

(** [r'^[a-zA-Z0-9._%+-]+@[a-zA-Z0-9.-]+\.[a-zA-Z]{2,}$'] *)
Definition email_regex : list Re.item :=
  [ Re.Bol;
    Re.Rep [lower; upper; digit; Re.One (ord "."); Re.One (ord "_");
            Re.One (ord "%"); Re.One (ord "+"); Re.One (ord "-")] 1;
    Re.Chr (ord "@");
    Re.Rep [lower; upper; digit; Re.One (ord "."); Re.One (ord "-")] 1;
    Re.Chr (ord ".");
    Re.Rep [lower; upper] 2;
    Re.Eol ].

Definition validate_email (email : str) : bool :=
  if is_empty email || (254 <? len email) then false
  else Re.match_ email_regex email.

(** The generator expression of [sanitize_input]: the characters kept. *)
Definition keep_char (char : Z) : bool :=
  char_in char [10; 13; 9]
  || negb (((0 <=? char) && (char <=? 31)) || (char =? 127)).

Definition sanitize_input (user_input : str) (max_length : Z)
  : M world str :=
  if is_empty user_input then ret []
  else
    let sanitized := remove_char 0 user_input in
    let sanitized := filter keep_char sanitized in
    let sanitized := join [32] (split sanitized) in
    sanitized <-
      (if max_length <? len sanitized
       then logger WARNING "Input truncated" ;;
            ret (slice_to sanitized max_length)
       else ret sanitized) ;;
    (if negb (str_eqb sanitized user_input)
     then logger DEBUG "Input sanitization performed"
     else ret tt) ;;
    ret sanitized.

(** [token_urlsafe] is [secrets.token_urlsafe] as the random source
    answers it for this call. *)
Definition generate_token (token_urlsafe : Z -> str) (length : Z)
  : M world str :=
  length <-
    (if length <? 16
     then logger WARNING "Token length less than 16 bytes - using 16 minimum" ;;
          ret 16
     else ret length) ;;
  length <-
    (if 128 <? length
     then logger WARNING
            "Token length greater than 128 bytes - using 128 maximum" ;;
          ret 128
     else ret length) ;;
  let token := token_urlsafe length in
  logger DEBUG "Secure token generated" ;;
  ret token.

End Utils.

(* ===================================================================== *)
(** * The storage backend                                                 *)
(* ===================================================================== *)

Module Storage.

(** What [sqlite3] does when it is asked to run a statement: [fault] is
    the exception the driver raises for this call, if any (database
    locked, file unreadable, ...).  A statement that raises has changed
    nothing. *)
Definition driver (fault : option exn) : M world unit :=
  match fault with
  | Some e => raise e
  | None => ret tt
  end.

(** The rowid given to the next inserted row. *)
Definition next_rowid {R} (id : R -> Z) (rows : list R) : Z :=
  1 + fold_right (fun r m => Z.max (id r) m) 0 rows.

Definition set_users (us : list user_row) (w : world) : world :=
  {| users := us; sessions := sessions w; log := log w |}.

Definition set_sessions (ss : list session_row) (w : world) : world :=
  {| users := users w; sessions := ss; log := log w |}.

(** Modelled from the spec: the CREATE TABLE statements of [users.db] are
    not in the sources.  Following the data model of the specification,
    [users] has an integer primary key and uniqueness constraints on
    [username] and on [email]; [sessions] has an integer primary key and
    a uniqueness constraint on [token]; a violated constraint makes the
    INSERT raise [sqlite3.IntegrityError]. *)
Definition username_or_email_taken (username email : str) (w : world) : bool :=
  existsb (fun r => str_eqb (u_username r) username
                    || str_eqb (u_email r) email) (users w).

Definition token_taken (token : str) (w : world) : bool :=
  existsb (fun r => str_eqb (s_token r) token) (sessions w).

(** INSERT INTO users (username, password_hash, email, created_at)
    VALUES (?, ?, ?, ?); the result is [cursor.lastrowid]. *)
Definition insert_user (fault : option exn)
           (username password_hash email : str) (created_at : Z)
  : M world Z :=
  driver fault ;;
  w <- get ;;
  if username_or_email_taken username email w then raise IntegrityError
  else
    let rowid := next_rowid u_id (users w) in
    modify (set_users (users w ++
              [{| u_id := rowid; u_username := username;
                  u_password_hash := password_hash; u_email := email;
                  u_created_at := created_at |}])) ;;
    ret rowid.

(** SELECT ... FROM users WHERE username = ?, then [fetchone]. *)
Definition select_user_by_username (fault : option exn) (username : str)
  : M world (option user_row) :=
  driver fault ;;
  w <- get ;;
  ret (find (fun r => str_eqb (u_username r) username) (users w)).

(** SELECT ... FROM users WHERE id = ?, then [fetchone]. *)
Definition select_user_by_id (fault : option exn) (user_id : Z)
  : M world (option user_row) :=
  driver fault ;;
  w <- get ;;
  ret (find (fun r => u_id r =? user_id) (users w)).

(** UPDATE users SET password_hash = ? WHERE id = ? *)
Definition update_user_password (fault : option exn)
           (password_hash : str) (user_id : Z) : M world unit :=
  driver fault ;;
  modify (fun w =>
    set_users
      (map (fun r =>
              if u_id r =? user_id
              then {| u_id := u_id r; u_username := u_username r;
                      u_password_hash := password_hash;
                      u_email := u_email r;
                      u_created_at := u_created_at r |}
              else r) (users w)) w).

(** INSERT INTO sessions (user_id, token, created_at, expires_at)
    VALUES (?, ?, ?, ?); the result is [cursor.lastrowid]. *)
Definition insert_session (fault : option exn)
           (user_id : Z) (token : str) (created_at expires_at : Z)
  : M world Z :=
  driver fault ;;
  w <- get ;;
  if token_taken token w then raise IntegrityError
  else
    let rowid := next_rowid s_id (sessions w) in
    modify (set_sessions (sessions w ++
              [{| s_id := rowid; s_user_id := user_id; s_token := token;
                  s_created_at := created_at;
                  s_expires_at := expires_at |}])) ;;
    ret rowid.

(** SELECT ... FROM sessions WHERE token = ? AND expires_at > ?, then
    [fetchone]. *)
Definition select_live_session (fault : option exn) (token : str) (now : Z)
  : M world (option session_row) :=
  driver fault ;;
  w <- get ;;
  ret (find (fun r => str_eqb (s_token r) token && (now <? s_expires_at r))
            (sessions w)).

(** DELETE FROM sessions WHERE id = ? *)
Definition delete_session (fault : option exn) (session_id : Z)
  : M world unit :=
  driver fault ;;
  modify (fun w =>
    set_sessions
      (filter (fun r => negb (s_id r =? session_id)) (sessions w)) w).

End Storage.

(* ===================================================================== *)
(** * The [datetime] module                                               *)
(* ===================================================================== *)

Module Datetime.

Definition us_per_hour : Z := 3600 * 1000000.
Definition us_per_day : Z := 24 * us_per_hour.

(** [datetime.max], 9999-12-31T23:59:59.999999. *)
Definition max_datetime : Z := 3652059 * us_per_day - 1.

(** [timedelta(hours=h)]: the day count must stay within 999999999. *)
Definition timedelta_hours (h : Z) : outcome Z :=
  let d := h * us_per_hour in
  if (d / us_per_day <? -999999999) || (999999999 <? d / us_per_day)
  then Raise OverflowError
  else Return d.

(** [t + d] for a datetime [t] and a timedelta [d]. *)
Definition add (t d : Z) : outcome Z :=
  if (t + d <? 0) || (max_datetime <? t + d)
  then Raise OverflowError
  else Return (t + d).

End Datetime.

(* ===================================================================== *)
(** * models.py                                                           *)
(* ===================================================================== *)

(** [not self.id], for an [Optional[int]]. *)
Definition no_id (id : option Z) : bool :=
  match id with
  | None => true
  | Some i => i =? 0
  end.

Definition self {W T} : M (W * T) T := fun st => (Return (snd st), st).

Definition set_self {W T} (f : T -> T) : M (W * T) unit :=
  fun st => (Return tt, (fst st, f (snd st))).

Module User.

Record t := {
  id : option Z;
  username : str;
  password_hash : str;
  email : str;
  created_at : Z
}.

Definition with_id (i : option Z) (u : t) : t :=
  {| id := i; username := username u; password_hash := password_hash u;
     email := email u; created_at := created_at u |}.

Definition with_password_hash (h : str) (u : t) : t :=
  {| id := id u; username := username u; password_hash := h;
     email := email u; created_at := created_at u |}.

Definition of_row (r : user_row) : t :=
  {| id := Some (u_id r); username := u_username r;
     password_hash := u_password_hash r; email := u_email r;
     created_at := u_created_at r |}.

Definition save (fault : option exn) : M (world * t) bool :=
  u <- self ;;
  if is_empty (username u) || (50 <? len (username u))
  then raise ValueError
  else if is_empty (email u) || (100 <? len (email u))
  then raise ValueError
  else if is_empty (password_hash u)
  then raise ValueError
  else
    try_except
      (lastrowid <- on_fst (Storage.insert_user fault (username u)
                              (password_hash u) (email u) (created_at u)) ;;
       set_self (with_id (Some lastrowid)) ;;
       on_fst (logger INFO "User created successfully") ;;
       ret true)
      (fun e =>
         if isinstance e IntegrityError
         then Some (on_fst (logger WARNING "Failed to create user") ;;
                    ret false)
         else if isinstance e Sqlite3Error
         then Some (on_fst (logger ERROR "Database error creating user") ;;
                    ret false)
         else if isinstance e Exception
         then Some (on_fst (logger ERROR "Unexpected error creating user") ;;
                    ret false)
         else None).

Definition set_password (ph : PasswordHasher) (salt : str)
           (plain_password : str) : M (world * t) unit :=
  if is_empty plain_password || (len plain_password <? 8)
  then raise ValueError
  else if 200 <? len plain_password
  then raise ValueError
  else
    h <- on_fst (Utils.hash_password ph salt plain_password) ;;
    set_self (with_password_hash h) ;;
    on_fst (logger DEBUG "Password set for user").

Definition check_password (ph : PasswordHasher) (plain_password : str)
  : M (world * t) bool :=
  u <- self ;;
  if is_empty (password_hash u) || is_empty plain_password
  then ret false
  else on_fst (Utils.verify_password ph (password_hash u) plain_password).

Definition find_by_username (fault : option exn) (username : str)
  : M world (option t) :=
  if is_empty username || (50 <? len username)
  then logger WARNING "Invalid username length for search" ;;
       ret None
  else
    try_except
      (result <- Storage.select_user_by_username fault username ;;
       match result with
       | Some r => logger DEBUG "User found" ;; ret (Some (of_row r))
       | None => logger DEBUG "User not found" ;; ret None
       end)
      (fun e =>
         if isinstance e Sqlite3Error
         then Some (logger ERROR "Database error finding user" ;; ret None)
         else if isinstance e Exception
         then Some (logger ERROR "Unexpected error finding user" ;; ret None)
         else None).

Definition find_by_id (fault : option exn) (user_id : Z)
  : M world (option t) :=
  if user_id <=? 0
  then logger WARNING "Invalid user_id for search" ;; ret None
  else
    try_except
      (result <- Storage.select_user_by_id fault user_id ;;
       match result with
       | Some r => ret (Some (of_row r))
       | None => ret None
       end)
      (fun e =>
         if isinstance e Sqlite3Error
         then Some (logger ERROR "Database error finding user" ;; ret None)
         else None).

Definition update_password (ph : PasswordHasher) (salt : str)
           (fault : option exn) (new_password : str) : M (world * t) bool :=
  u <- self ;;
  if no_id (id u)
  then on_fst (logger ERROR "Cannot update password for user without ID") ;;
       ret false
  else
    try_except
      (set_password ph salt new_password ;;
       u' <- self ;;
       on_fst (Storage.update_user_password fault (password_hash u')
                 (match id u' with Some i => i | None => 0 end)) ;;
       on_fst (logger INFO "Password updated for user") ;;
       ret true)
      (fun e =>
         if isinstance e ValueError
         then Some (on_fst (logger WARNING "Password validation failed for user") ;;
                    ret false)
         else if isinstance e Sqlite3Error
         then Some (on_fst (logger ERROR
                              "Database error updating password for user") ;;
                    ret false)
         else if isinstance e Exception
         then Some (on_fst (logger ERROR
                              "Unexpected error updating password for user") ;;
                    ret false)
         else None).

End User.

Module Session.

Record t := {
  id : option Z;
  user_id : Z;
  token : str;
  created_at : Z;
  expires_at : Z
}.

(** [Session.__init__]; [now] is what [datetime.now()] answers, read
    only for an argument that is [None]. *)
Definition init (now : Z) (id : option Z) (user_id : Z) (token : str)
           (created_at expires_at : option Z) : M world t :=
  created <- match created_at with
             | Some c => ret c
             | None => ret now
             end ;;
  expires <- match expires_at with
             | Some e => ret e
             | None =>
                 d <- of_outcome (Datetime.timedelta_hours 24) ;;
                 of_outcome (Datetime.add now d)
             end ;;
  ret {| id := id; user_id := user_id; token := token;
         created_at := created; expires_at := expires |}.

Definition create (token_urlsafe : Z -> str) (now : Z) (fault : option exn)
           (user_id : Z) (expiration_hours : Z) : M world (option t) :=
  if user_id <=? 0
  then logger WARNING "Invalid user_id for session creation" ;; ret None
  else
    try_except
      (token <- Utils.generate_token token_urlsafe 32 ;;
       let created_at := now in
       d <- of_outcome (Datetime.timedelta_hours expiration_hours) ;;
       expires_at <- of_outcome (Datetime.add created_at d) ;;
       session_id <- Storage.insert_session fault user_id token
                       created_at expires_at ;;
       logger INFO "Session created for user" ;;
       s <- init now (Some session_id) user_id token
              (Some created_at) (Some expires_at) ;;
       ret (Some s))
      (fun e =>
         if isinstance e Sqlite3Error
         then Some (logger ERROR "Database error creating session for user" ;;
                    ret None)
         else if isinstance e Exception
         then Some (logger ERROR
                      "Unexpected error creating session for user" ;;
                    ret None)
         else None).

Definition find_by_token (now : Z) (fault : option exn) (token : str)
  : M world (option t) :=
  if is_empty token then ret None
  else
    try_except
      (result <- Storage.select_live_session fault token now ;;
       match result with
       | Some r =>
           s <- init now (Some (s_id r)) (s_user_id r) (s_token r)
                  (Some (s_created_at r)) (Some (s_expires_at r)) ;;
           ret (Some s)
       | None => ret None
       end)
      (fun e =>
         if isinstance e Sqlite3Error
         then Some (logger ERROR "Database error finding session" ;; ret None)
         else None).

Definition is_valid (now : Z) (s : t) : bool := now <? expires_at s.

Definition revoke (fault : option exn) : M (world * t) bool :=
  s <- self ;;
  if no_id (id s) then ret false
  else
    try_except
      (on_fst (Storage.delete_session fault
                 (match id s with Some i => i | None => 0 end)) ;;
       on_fst (logger INFO "Session revoked for user") ;;
       ret true)
      (fun e =>
         if isinstance e Sqlite3Error
         then Some (on_fst (logger ERROR "Database error revoking session") ;;
                    ret false)
         else None).

End Session.

(* ===================================================================== *)
(** * utils.py: the activity log                                          *)
(* ===================================================================== *)

Module Activity.

(** The values a context dict may carry; [VFloat] keeps the bits of the
    number, [VOther] stands for an object of any other type. *)
Inductive value :=
| VNone
| VBool (b : bool)
| VInt (n : Z)
| VFloat (bits : Z)
| VStr (s : str)
| VOther.

(** [isinstance(v, (str, int, float, bool))]. *)
Definition is_scalar (v : value) : bool :=
  match v with
  | VStr _ | VInt _ | VFloat _ | VBool _ => true
  | VNone | VOther => false
  end.

(** A dict with string keys, in insertion order. *)
Definition dict := list (str * value).

(** The [extra] mapping handed to [logger.info]. *)
Record extra := {
  x_user_id : Z;
  x_action : str;
  x_context : dict
}.

Definition safe_fields : list str :=
  [lit "ip"; lit "user_agent"; lit "action_type"; lit "resource_id";
   lit "timestamp"].

(** [k in safe_fields]. *)
Definition is_safe_field (k : str) : bool := existsb (str_eqb k) safe_fields.

(** [logger.info("User activity", extra=...)]: the record goes to the log
    and its [extra] to the second component of the state. *)
Definition logger_info_extra (m : string) (x : extra)
  : M (world * list extra) unit :=
  on_fst (logger INFO m) ;;
  set_self (cons x).

Definition log_activity (user_id : Z) (action : str) (context : option dict)
  : M (world * list extra) unit :=
  if user_id <=? 0
  then on_fst (logger WARNING "Invalid user_id for activity logging")
  else if is_empty action || (100 <? len action)
  then on_fst (logger WARNING "Invalid action for activity logging")
  else
    let safe_context :=
      match context with
      | None | Some [] => []
      | Some c =>
          filter (fun kv => is_safe_field (fst kv) && is_scalar (snd kv)) c
      end in
    logger_info_extra "User activity"
      {| x_user_id := user_id; x_action := action;
         x_context := safe_context |}.

End Activity.

(* ===================================================================== *)
(** * The legacy utils.py (vulnerable variant)                            *)
(* ===================================================================== *)

Module Legacy.

(** ['@' in email]. *)
Definition validate_email (email : str) : bool := char_in 64 email.

Definition dangerous_chars : list Z := [39; 34].

(** The loop [for char in dangerous_chars: user_input =
    user_input.replace(char, '')]. *)
Definition sanitize_input (user_input : str) : str :=
  fold_left (fun s char => remove_char char s) dangerous_chars user_input.

End Legacy.

(* ===================================================================== *)
(** * Reference values                                                    *)
(* ===================================================================== *)

(** Concrete values on which the statements below are run. *)
Module Demo.

Fixpoint after_dollar (s : str) : option str :=
  match s with
  | [] => None
  | c :: s' => if c =? 36 then Some s' else after_dollar s'
  end.

(** A stand-in for the argon2 binding.  It is not a hash: the encoded text
    is ["$"], the salt, ["$"] and the password. *)
Definition ph : PasswordHasher :=
  {| ph_hash := fun salt p => Return (36 :: salt ++ 36 :: p);
     ph_verify := fun h p =>
       match h with
       | 36 :: rest =>
           match after_dollar rest with
           | Some q => if str_eqb q p then Return true
                       else Raise VerifyMismatchError
           | None => Raise InvalidHash
           end
       | _ => Raise InvalidHash
       end;
     ph_check_needs_rehash := fun _ => Return false |}.

Definition empty_world : world :=
  {| users := []; sessions := []; log := [] |}.

(** 2024-01-01T00:00:00. *)
Definition midnight : Z := 738885 * Datetime.us_per_day.

Definition token_urlsafe (n : Z) : str := lit "q0xYp3".

Definition alice : User.t :=
  {| User.id := None; User.username := lit "alice";
     User.password_hash := lit "$s$Sup3rSecret!";
     User.email := lit "alice@x.com"; User.created_at := midnight |}.

Definition alice_again : User.t :=
  {| User.id := None; User.username := lit "alice";
     User.password_hash := lit "$t$0therSecret";
     User.email := lit "al@y.org"; User.created_at := midnight + 1 |}.

(** The world after [alice.save()]. *)
Definition with_alice : world := fst (snd (User.save None (empty_world, alice))).

Definition alice_saved : User.t := snd (snd (User.save None (empty_world, alice))).

(** A session row of user 1 that expires a day after [midnight], and the
    object [Session.create] returned for it. *)
Definition with_session : world :=
  snd (Session.create token_urlsafe midnight None 1 24 empty_world).

Definition session : Session.t :=
  {| Session.id := Some 1; Session.user_id := 1;
     Session.token := lit "q0xYp3"; Session.created_at := midnight;
     Session.expires_at := midnight + Datetime.us_per_day |}.

(** The same call with [expiration_hours=0]. *)
Definition with_zero_hours_session : world :=
  snd (Session.create token_urlsafe midnight None 1 0 empty_world).

Definition zero_hours_session : Session.t :=
  {| Session.id := Some 1; Session.user_id := 1;
     Session.token := lit "q0xYp3"; Session.created_at := midnight;
     Session.expires_at := midnight |}.

End Demo.

(** More concrete values: a second session, a second account. *)
Module Sample.

Definition other_token_urlsafe (n : Z) : str := lit "Zk81bM".

(** The world after a second [Session.create], for user 2, one
    microsecond after the first. *)
Definition with_two_sessions : world :=
  snd (Session.create other_token_urlsafe (Demo.midnight + 1) None 2 24
         Demo.with_session).

Definition second_session : Session.t :=
  {| Session.id := Some 2; Session.user_id := 2;
     Session.token := lit "Zk81bM"; Session.created_at := Demo.midnight + 1;
     Session.expires_at := Demo.midnight + 1 + Datetime.us_per_day |}.

Definition bob : User.t :=
  {| User.id := None; User.username := lit "bob";
     User.password_hash := lit "$u$hunter2hunter2";
     User.email := lit "bob@x.com"; User.created_at := Demo.midnight + 7 |}.

Definition context : Activity.dict :=
  [ (lit "ip", Activity.VStr (lit "192.168.1.1"));
    (lit "password", Activity.VStr (lit "should_not_be_logged"));
    (lit "resource_id", Activity.VInt 7);
    (lit "timestamp", Activity.VNone) ].

End Sample.

(* ===================================================================== *)
(** * Vocabulary of the statements                                        *)
(* ===================================================================== *)

(** The database driver either works or raises an [sqlite3.Error]. *)
Definition sqlite_or_none (fault : option exn) : Prop :=
  match fault with
  | None => True
  | Some e => isinstance e Sqlite3Error = true
  end.

(** The session object [s] is the in-memory image of a row of [w]. *)
Definition stored (w : world) (s : Session.t) : Prop :=
  exists r, In r (sessions w)
            /\ Session.id s = Some (s_id r)
            /\ Session.token s = s_token r.

(** The uniqueness constraint on [sessions.token] holds in [w]. *)
Definition tokens_unique (w : world) : Prop :=
  NoDup (map s_token (sessions w)).

(** The row selected by [find_by_token], as a session object. *)
Definition session_of_row (r : session_row) : Session.t :=
  {| Session.id := Some (s_id r); Session.user_id := s_user_id r;
     Session.token := s_token r; Session.created_at := s_created_at r;
     Session.expires_at := s_expires_at r |}.

(** The address pattern in the words of the specification: [local@domain.tld]
    with [local] in [A-Za-z0-9._%+-]+, [domain] in [A-Za-z0-9.-]+ and [tld]
    made of two or more letters. *)
Definition is_letter (c : Z) : bool :=
  ((65 <=? c) && (c <=? 90)) || ((97 <=? c) && (c <=? 122)).

Definition is_digit (c : Z) : bool := (48 <=? c) && (c <=? 57).

Definition is_local_char (c : Z) : bool :=
  is_letter c || is_digit c
  || (c =? 46) || (c =? 95) || (c =? 37) || (c =? 43) || (c =? 45).

Definition is_domain_char (c : Z) : bool :=
  is_letter c || is_digit c || (c =? 46) || (c =? 45).

Definition email_pattern (s : str) : Prop :=
  exists local domain tld,
    s = local ++ [64] ++ domain ++ [46] ++ tld
    /\ local <> [] /\ forallb is_local_char local = true
    /\ domain <> [] /\ forallb is_domain_char domain = true
    /\ (2 <= List.length tld)%nat /\ forallb is_letter tld = true.

(** The whitespace-normalised form [sanitize_input] computes before it
    enforces the length limit, and the text it returns. *)
Definition normalized (x : str) : str :=
  join [32] (split (filter Utils.keep_char (remove_char 0 x))).

Definition sanitized (x : str) (max_length : Z) : str :=
  if is_empty x then []
  else if max_length <? len (normalized x)
       then slice_to (normalized x) max_length
       else normalized x.

(** A character that survives the filters and is not whitespace. *)
Definition word_char (c : Z) : bool :=
  negb (isspace c) && Utils.keep_char c && negb (c =? 0).

(** Words of [word_char]s separated by single spaces, with no space in
    front; [after_space] tells whether a space (or the start) precedes. *)
Fixpoint tidy_from (after_space : bool) (s : str) : bool :=
  match s with
  | [] => true
  | c :: s' =>
      if c =? 32 then negb after_space && tidy_from true s'
      else word_char c && tidy_from false s'
  end.

Fixpoint ends_with_space (s : str) : bool :=
  match s with
  | [] => false
  | [c] => c =? 32
  | _ :: s' => ends_with_space s'
  end.

(** The constraints of the [sessions] table: distinct tokens, distinct
    positive ids. *)
Definition sessions_ok (w : world) : Prop :=
  NoDup (map s_token (sessions w))
  /\ NoDup (map s_id (sessions w))
  /\ Forall (fun r => 0 < s_id r) (sessions w).

(** The constraints of the [users] table: distinct usernames, distinct
    emails, distinct positive ids. *)
Definition users_ok (w : world) : Prop :=
  NoDup (map u_username (users w))
  /\ NoDup (map u_email (users w))
  /\ NoDup (map u_id (users w))
  /\ Forall (fun r => 0 < u_id r) (users w).

(** The row [User.save] inserts for the account [u] under rowid [k]. *)
Definition row_of_user (k : Z) (u : User.t) : user_row :=
  {| u_id := k; u_username := User.username u;
     u_password_hash := User.password_hash u; u_email := User.email u;
     u_created_at := User.created_at u |}.

(** The fields of an account pass the checks of [User.save]. *)
Definition savable (u : User.t) : Prop :=
  User.username u <> [] /\ len (User.username u) <= 50
  /\ User.email u <> [] /\ len (User.email u) <= 100
  /\ User.password_hash u <> [].

(** [0 <= ord(c) <= 31 or ord(c) == 127]. *)
Definition is_control (c : Z) : bool :=
  ((0 <=? c) && (c <=? 31)) || (c =? 127).

(** What [UPDATE users SET password_hash = h WHERE id = i] does to a row. *)
Definition rehashed (h : str) (i : Z) (r : user_row) : user_row :=
  if u_id r =? i
  then {| u_id := u_id r; u_username := u_username r;
          u_password_hash := h; u_email := u_email r;
          u_created_at := u_created_at r |}
  else r.

(* ===================================================================== *)
(** * Properties                                                          *)
(* ===================================================================== *)

(** ** Running the monad *)

Ltac run :=
  cbv [bind ret raise get modify try_except of_outcome on_fst self set_self
       logger Storage.driver] in *;
  cbn [fst snd] in *.

Lemma isinstance_Exception e : isinstance e Exception = true.
Proof. destruct e; reflexivity. Qed.

Lemma len_nonneg s : 0 <= len s.
Proof. unfold len. lia. Qed.

Lemma is_empty_true s : is_empty s = true <-> s = [].
Proof. destruct s; simpl; split; congruence. Qed.

Lemma is_empty_false s : is_empty s = false <-> s <> [].
Proof. destruct s; simpl; split; congruence. Qed.

Lemma str_eqb_eq a b : str_eqb a b = true <-> a = b.
Proof.
  revert b. induction a as [|x a IH]; intros [|y b]; simpl;
    try (split; congruence).
  rewrite andb_true_iff, Z.eqb_eq, IH. split.
  - intros [-> ->]. reflexivity.
  - intros H. injection H as -> ->. auto.
Qed.

Lemma str_eqb_refl a : str_eqb a a = true.
Proof. apply str_eqb_eq. reflexivity. Qed.

(** ** Session.create *)

Lemma timedelta_hours_value h d :
  Datetime.timedelta_hours h = Return d -> d = h * Datetime.us_per_hour.
Proof.
  unfold Datetime.timedelta_hours.
  destruct (_ || _); congruence.
Qed.

Lemma datetime_add_value t d r :
  Datetime.add t d = Return r -> r = t + d.
Proof.
  unfold Datetime.add.
  destruct (_ || _); congruence.
Qed.

Lemma generate_token_run tok n w :
  exists w', Utils.generate_token tok n w = (Return (tok (Z.max 16 (Z.min n 128))), w')
             /\ users w' = users w /\ sessions w' = sessions w.
Proof.
  unfold Utils.generate_token. run.
  destruct (n <? 16) eqn:E16; cbn.
  - replace (Z.max 16 (Z.min n 128)) with 16 by lia.
    eexists; repeat split.
  - destruct (128 <? n) eqn:E128; cbn.
    + replace (Z.max 16 (Z.min n 128)) with 128 by lia.
      eexists; repeat split.
    + replace (Z.max 16 (Z.min n 128)) with n by lia.
      eexists; repeat split.
Qed.

(** What [Session.create] returns, when it returns a session: the token
    drawn for the call, the clock reading as creation time, and an expiry
    that lies [expiration_hours] hours later; the row is in the table. *)
Lemma create_returns tok now fault uid h w s w' :
  Session.create tok now fault uid h w = (Return (Some s), w') ->
  0 < uid /\ fault = None
  /\ Session.user_id s = uid
  /\ Session.token s = tok 32
  /\ Session.created_at s = now
  /\ Session.expires_at s = now + h * Datetime.us_per_hour
  /\ Storage.token_taken (tok 32) w = false
  /\ Session.id s = Some (Storage.next_rowid s_id (sessions w))
  /\ sessions w' =
       sessions w ++
       [{| s_id := Storage.next_rowid s_id (sessions w); s_user_id := uid;
           s_token := tok 32; s_created_at := now;
           s_expires_at := now + h * Datetime.us_per_hour |}].
Proof.
  unfold Session.create.
  destruct (uid <=? 0) eqn:Eu.
  { run. intros H. inversion H. }
  destruct (generate_token_run tok 32 w) as (w1 & Hg & Hu1 & Hs1).
  change (Z.max 16 (Z.min 32 128)) with 32 in Hg.
  unfold try_except, bind at 1. rewrite Hg.
  unfold bind at 1, of_outcome at 1.
  destruct (Datetime.timedelta_hours h) as [d|e] eqn:Ed.
  2:{ rewrite isinstance_Exception. destruct (isinstance e Sqlite3Error);
      run; intros H; inversion H. }
  apply timedelta_hours_value in Ed. subst d.
  unfold bind at 1, of_outcome at 1.
  destruct (Datetime.add now (h * Datetime.us_per_hour)) as [x|e] eqn:Ex.
  2:{ rewrite isinstance_Exception. destruct (isinstance e Sqlite3Error);
      run; intros H; inversion H. }
  apply datetime_add_value in Ex. subst x.
  unfold Storage.insert_session, Session.init. run.
  destruct fault as [e|].
  { rewrite isinstance_Exception. destruct (isinstance e Sqlite3Error);
    intros H; inversion H. }
  unfold Storage.token_taken at 1. rewrite Hs1.
  fold (Storage.token_taken (tok 32) w).
  destruct (Storage.token_taken (tok 32) w) eqn:Et.
  { cbn. intros H. inversion H. }
  cbn. intros H. inversion H; subst; cbn.
  repeat split; auto; lia.
Qed.

Lemma create_never_raises tok now fault uid h w :
  exists o w', Session.create tok now fault uid h w = (Return o, w').
Proof.
  unfold Session.create.
  destruct (uid <=? 0). { run. eauto. }
  destruct (generate_token_run tok 32 w) as (w1 & Hg & _ & _).
  change (Z.max 16 (Z.min 32 128)) with 32 in Hg.
  unfold try_except, bind at 1. rewrite Hg.
  unfold bind at 1, of_outcome at 1.
  destruct (Datetime.timedelta_hours h) as [d|e].
  2:{ rewrite isinstance_Exception. destruct (isinstance e Sqlite3Error);
      run; eauto. }
  unfold bind at 1, of_outcome at 1.
  destruct (Datetime.add now d) as [x|e].
  2:{ rewrite isinstance_Exception. destruct (isinstance e Sqlite3Error);
      run; eauto. }
  unfold Storage.insert_session, Session.init. run.
  destruct fault as [e|].
  { rewrite isinstance_Exception. destruct (isinstance e Sqlite3Error); eauto. }
  destruct (Storage.token_taken (tok 32) w1); cbn; eauto.
Qed.

(** C4, as the code has it: a session returned by [Session.create] expires
    exactly [expiration_hours] hours after its creation time, so its expiry
    is strictly after its creation if and only if [expiration_hours] is
    positive; with 0 hours the two timestamps are equal. *)
Theorem create_expiry_offset tok now fault uid h w s w' :
  Session.create tok now fault uid h w = (Return (Some s), w') ->
  Session.expires_at s = Session.created_at s + h * Datetime.us_per_hour
  /\ (Session.created_at s < Session.expires_at s <-> 0 < h).
Proof.
  intros H. apply create_returns in H.
  destruct H as (_ & _ & _ & _ & Hc & He & _).
  rewrite He, Hc. unfold Datetime.us_per_hour. split; lia.
Qed.

Lemma create_expiry_offset_witness :
  Session.create Demo.token_urlsafe Demo.midnight None 1 24 Demo.empty_world
    = (Return (Some Demo.session), Demo.with_session)
  /\ Session.expires_at Demo.session
       = Session.created_at Demo.session + 24 * Datetime.us_per_hour
  /\ (Session.created_at Demo.session < Session.expires_at Demo.session
      <-> 0 < 24).
Proof.
  split.
  - vm_compute. reflexivity.
  - apply (create_expiry_offset Demo.token_urlsafe Demo.midnight None 1 24
             Demo.empty_world Demo.session Demo.with_session).
    vm_compute. reflexivity.
Defined.

(** C4 as stated fails: [Session.create(1, 0)] returns a session whose
    expiry is not after its creation. *)
Lemma create_zero_hours_not_after :
  exists s w',
    Session.create Demo.token_urlsafe Demo.midnight None 1 0 Demo.empty_world
      = (Return (Some s), w')
    /\ ~ (Session.created_at s < Session.expires_at s).
Proof.
  eexists. eexists. split.
  - vm_compute. reflexivity.
  - cbn. lia.
Qed.

(** ** Session.find_by_token, Session.is_valid and Session.revoke *)

Lemma find_none_all {A} (p : A -> bool) l :
  find p l = None <-> (forall x, In x l -> p x = false).
Proof.
  split.
  - intros H x Hx. exact (find_none p l H x Hx).
  - induction l as [|a l IH]; intros H; simpl; [reflexivity|].
    rewrite (H a (or_introl eq_refl)). apply IH.
    intros x Hx. apply H. right. exact Hx.
Qed.

Lemma find_by_token_working now token w :
  is_empty token = false ->
  Session.find_by_token now None token w =
    (Return (option_map session_of_row
               (find (fun r => str_eqb (s_token r) token
                               && (now <? s_expires_at r)) (sessions w))),
     w).
Proof.
  intros Ht. unfold Session.find_by_token. rewrite Ht.
  unfold Storage.select_live_session, Session.init. run.
  destruct (find _ (sessions w)); reflexivity.
Qed.

Lemma find_by_token_sqlite_error now e token w :
  is_empty token = false ->
  isinstance e Sqlite3Error = true ->
  exists w', Session.find_by_token now (Some e) token w = (Return None, w')
             /\ users w' = users w /\ sessions w' = sessions w.
Proof.
  intros Ht He. unfold Session.find_by_token. rewrite Ht.
  unfold Storage.select_live_session. run. rewrite He.
  eexists. repeat split.
Qed.

Lemma revoke_working w s :
  no_id (Session.id s) = false ->
  exists w',
    Session.revoke None (w, s) = (Return true, (w', s))
    /\ users w' = users w
    /\ sessions w' =
         filter (fun r => negb (s_id r =? match Session.id s with
                                          | Some i => i
                                          | None => 0
                                          end)) (sessions w).
Proof.
  intros Hid. unfold Session.revoke, Storage.delete_session. run.
  rewrite Hid. cbn. eexists. repeat split.
Qed.

Lemma revoke_sqlite_error e w s :
  no_id (Session.id s) = false ->
  isinstance e Sqlite3Error = true ->
  exists w',
    Session.revoke (Some e) (w, s) = (Return false, (w', s))
    /\ users w' = users w /\ sessions w' = sessions w.
Proof.
  intros Hid He. unfold Session.revoke, Storage.delete_session. run.
  rewrite Hid. cbn. rewrite He. eexists. repeat split.
Qed.

Lemma revoke_without_id fault w s :
  no_id (Session.id s) = true ->
  Session.revoke fault (w, s) = (Return false, (w, s)).
Proof.
  intros Hid. unfold Session.revoke. run. rewrite Hid. destruct s; reflexivity.
Qed.

(** Whatever [revoke] does, it does not touch the object it is called on,
    and a call that returned [True] was made on a session with an id while
    the driver worked. *)
Lemma revoke_inv fault w s o w' s' :
  Session.revoke fault (w, s) = (o, (w', s')) ->
  s' = s
  /\ (o = Return true ->
      no_id (Session.id s) = false /\ fault = None).
Proof.
  unfold Session.revoke, Storage.delete_session. run.
  destruct (no_id (Session.id s)) eqn:Hid; cbn.
  - intros H. inversion H; subst. split; [reflexivity|discriminate].
  - destruct fault as [e|]; cbn.
    + destruct (isinstance e Sqlite3Error); cbn; intros H; inversion H; subst;
        (split; [reflexivity|discriminate]).
    + intros H. inversion H; subst. auto.
Qed.

Lemma filter_filter_same {A} (p : A -> bool) l :
  filter p (filter p l) = filter p l.
Proof.
  induction l as [|a l IH]; simpl; [reflexivity|].
  destruct (p a) eqn:E; simpl; [rewrite E, IH|]; auto.
Qed.

Lemma NoDup_map_inj {A B} (f : A -> B) l x y :
  NoDup (map f l) -> In x l -> In y l -> f x = f y -> x = y.
Proof.
  induction l as [|a l IH]; simpl; intros Hnd Hx Hy Hf; [contradiction|].
  inversion Hnd as [|? ? Hnotin Hnd']; subst.
  destruct Hx as [->|Hx], Hy as [->|Hy]; auto.
  - exfalso. apply Hnotin. rewrite Hf. apply in_map. exact Hy.
  - exfalso. apply Hnotin. rewrite <- Hf. apply in_map. exact Hx.
Qed.

Lemma find_by_token_after_delete now f w w' s i :
  tokens_unique w -> stored w s -> Session.id s = Some i ->
  sessions w' = filter (fun r => negb (s_id r =? i)) (sessions w) ->
  sqlite_or_none f ->
  fst (Session.find_by_token now f (Session.token s) w') = Return None.
Proof.
  intros Hu (r & Hr & Hid & Htok) Hi Hs Hf.
  destruct (is_empty (Session.token s)) eqn:Ht.
  { unfold Session.find_by_token. rewrite Ht. reflexivity. }
  destruct f as [e|].
  - destruct (find_by_token_sqlite_error now e _ w' Ht Hf) as (w2 & -> & _).
    reflexivity.
  - rewrite (find_by_token_working now _ w' Ht). cbn.
    replace (find _ (sessions w')) with (@None session_row); [reflexivity|].
    symmetry. apply find_none_all. intros x Hx.
    rewrite Hs in Hx. apply filter_In in Hx. destruct Hx as [Hx Hne].
    destruct (str_eqb (s_token x) (Session.token s)) eqn:E; [|reflexivity].
    apply str_eqb_eq in E. rewrite Htok in E.
    assert (x = r) by (eapply NoDup_map_inj; eauto). subst x.
    rewrite Hid in Hi. injection Hi as <-.
    rewrite Z.eqb_refl in Hne. discriminate.
Qed.

(** C1, as the code has it: after a successful [revoke], a second [revoke]
    of the same session does not raise and returns [True] again (the DELETE
    of an absent row succeeds) and leaves the tables as the first call left
    them; it returns [False] only if the driver raises an [sqlite3.Error].
    [revoke] returns [False], and changes nothing, whenever the session has
    no assigned identity. *)
Theorem revoke_twice fault w s w1 s1 :
  Session.revoke fault (w, s) = (Return true, (w1, s1)) ->
  (exists w2,
      Session.revoke None (w1, s1) = (Return true, (w2, s1))
      /\ sessions w2 = sessions w1 /\ users w2 = users w1)
  /\ (forall e, isinstance e Sqlite3Error = true ->
      exists w2,
        Session.revoke (Some e) (w1, s1) = (Return false, (w2, s1))
        /\ sessions w2 = sessions w1 /\ users w2 = users w1)
  /\ (forall f w0 s0, no_id (Session.id s0) = true ->
      Session.revoke f (w0, s0) = (Return false, (w0, s0))).
Proof.
  intros H.
  destruct (revoke_inv _ _ _ _ _ _ H) as [-> Hok].
  destruct (Hok eq_refl) as [Hid ->]. clear Hok.
  destruct (revoke_working w s Hid) as (w1' & H1 & _ & Hs1).
  rewrite H1 in H. injection H as <-.
  split; [|split].
  - destruct (revoke_working w1' s Hid) as (w2 & H2 & Hu2 & Hs2).
    exists w2. repeat split; auto.
    rewrite Hs2, Hs1. apply filter_filter_same.
  - intros e He.
    destruct (revoke_sqlite_error e w1' s Hid He) as (w2 & H2 & Hu2 & Hs2).
    exists w2. auto.
  - intros f w0 s0. apply revoke_without_id.
Qed.

Lemma revoke_twice_witness :
  Session.revoke None (Demo.with_session, Demo.session)
    = (Return true,
       (fst (snd (Session.revoke None (Demo.with_session, Demo.session))),
        Demo.session))
  /\ exists w2,
      Session.revoke None
        (fst (snd (Session.revoke None (Demo.with_session, Demo.session))),
         Demo.session)
        = (Return true, (w2, Demo.session))
      /\ sessions w2 = []
      /\ users w2 = [].
Proof.
  split.
  - vm_compute. reflexivity.
  - exact (proj1 (revoke_twice None Demo.with_session Demo.session
                    (fst (snd (Session.revoke None
                                 (Demo.with_session, Demo.session))))
                    Demo.session eq_refl)).
Defined.

(** C1 as stated fails: the second [revoke] of a persisted session returns
    [True], not [False]. *)
Lemma revoke_second_call_true :
  stored Demo.with_session Demo.session
  /\ exists w1 w2,
      Session.revoke None (Demo.with_session, Demo.session)
        = (Return true, (w1, Demo.session))
      /\ Session.revoke None (w1, Demo.session)
           = (Return true, (w2, Demo.session))
      /\ fst (Session.revoke None (w1, Demo.session)) <> Return false.
Proof.
  split.
  - eexists. split; [left; reflexivity|]. split; reflexivity.
  - eexists. eexists. split; [vm_compute; reflexivity|].
    split; [vm_compute; reflexivity|].
    vm_compute. discriminate.
Qed.

(** C10: a successful [revoke] returns the session object with every field
    as it was; so [is_valid] on that object is still [True] at any time
    before its expiry, while [find_by_token] for its token finds nothing
    in the table the call left behind. *)
Theorem revoke_leaves_object fault w s w' s' :
  Session.revoke fault (w, s) = (Return true, (w', s')) ->
  (Session.id s' = Session.id s
   /\ Session.user_id s' = Session.user_id s
   /\ Session.token s' = Session.token s
   /\ Session.created_at s' = Session.created_at s
   /\ Session.expires_at s' = Session.expires_at s)
  /\ (forall now, now < Session.expires_at s ->
      Session.is_valid now s' = true)
  /\ (tokens_unique w -> stored w s ->
      forall now f, sqlite_or_none f ->
        fst (Session.find_by_token now f (Session.token s') w') = Return None).
Proof.
  intros H.
  destruct (revoke_inv _ _ _ _ _ _ H) as [-> Hok].
  destruct (Hok eq_refl) as [Hid ->]. clear Hok.
  destruct (revoke_working w s Hid) as (w1 & H1 & _ & Hs1).
  rewrite H1 in H. injection H as <-.
  split; [repeat split|split].
  - intros now Hnow. unfold Session.is_valid. apply Z.ltb_lt. exact Hnow.
  - intros Hu Hst now f Hf.
    destruct (Session.id s) as [i|] eqn:Ei; [|discriminate].
    eapply find_by_token_after_delete; eauto.
Qed.

Lemma revoke_leaves_object_witness :
  Session.revoke None (Demo.with_session, Demo.session)
    = (Return true,
       (fst (snd (Session.revoke None (Demo.with_session, Demo.session))),
        Demo.session))
  /\ Session.is_valid (Demo.midnight + 1) Demo.session = true
  /\ fst (Session.find_by_token (Demo.midnight + 1) None
            (Session.token Demo.session)
            (fst (snd (Session.revoke None
                         (Demo.with_session, Demo.session)))))
     = Return None.
Proof.
  pose proof (revoke_leaves_object None Demo.with_session Demo.session
                (fst (snd (Session.revoke None
                             (Demo.with_session, Demo.session))))
                Demo.session eq_refl) as (_ & Hv & Hf).
  split; [vm_compute; reflexivity|]. split.
  - apply Hv. vm_compute. reflexivity.
  - apply Hf.
    + unfold tokens_unique. vm_compute.
      constructor; [intros []|constructor].
    + eexists. split; [left; reflexivity|]. split; reflexivity.
    + exact I.
Defined.

Lemma find_by_token_some now fault token w s :
  fst (Session.find_by_token now fault token w) = Return (Some s) ->
  exists r, In r (sessions w) /\ s = session_of_row r
            /\ s_token r = token /\ now < s_expires_at r.
Proof.
  destruct (is_empty token) eqn:Ht.
  { unfold Session.find_by_token. rewrite Ht. discriminate. }
  destruct fault as [e|].
  - unfold Session.find_by_token, Storage.select_live_session. rewrite Ht.
    run. destruct (isinstance e Sqlite3Error); discriminate.
  - rewrite (find_by_token_working now token w Ht). cbn.
    destruct (find _ (sessions w)) as [r|] eqn:Ef; [|discriminate].
    intros H. injection H as <-.
    apply find_some in Ef. destruct Ef as [Hin Hp].
    apply andb_true_iff in Hp. destruct Hp as [Hp1 Hp2].
    exists r. repeat split; auto.
    + apply str_eqb_eq. exact Hp1.
    + apply Z.ltb_lt. exact Hp2.
Qed.

(** C7, as the code has it, for every behaviour of the database call:
    [find_by_token] returns absent exactly when the token is empty, or the
    call raises an [sqlite3.Error], or the call succeeds and every session
    that stores the token has [expires_at <= now] (in particular when none
    stores it).  It raises exactly when the token is not empty and the
    call raises an exception that is not an [sqlite3.Error], which it
    passes on.  [is_valid] is [now < expires_at]; and a session created
    with 0 hours is, from its creation time on, invalid and never the
    answer of [find_by_token]. *)
Theorem find_by_token_absent now fault token w :
  (fst (Session.find_by_token now fault token w) = Return None
   <-> token = []
       \/ (exists e, fault = Some e /\ isinstance e Sqlite3Error = true)
       \/ (fault = None
           /\ forall r, In r (sessions w) -> s_token r = token ->
                        s_expires_at r <= now))
  /\ (forall e,
        fst (Session.find_by_token now fault token w) = Raise e
        <-> token <> [] /\ fault = Some e
            /\ isinstance e Sqlite3Error = false)
  /\ (forall s, Session.is_valid now s = true <-> now < Session.expires_at s)
  /\ (forall tok now0 f0 uid w0 s w1,
        Session.create tok now0 f0 uid 0 w0 = (Return (Some s), w1) ->
        now0 <= now ->
        Session.is_valid now s = false
        /\ fst (Session.find_by_token now fault (Session.token s) w)
           <> Return (Some s)).
Proof.
  assert (is_empty token = false ->
          forall e, fault = Some e ->
            fst (Session.find_by_token now fault token w)
            = if isinstance e Sqlite3Error then Return None else Raise e)
    as Hfault.
  { intros Ht e ->.
    unfold Session.find_by_token, Storage.select_live_session. rewrite Ht.
    run. destruct (isinstance e Sqlite3Error); reflexivity. }
  split; [|split; [|split]].
  - destruct (is_empty token) eqn:Ht.
    { unfold Session.find_by_token. rewrite Ht. cbn.
      apply is_empty_true in Ht. tauto. }
    assert (token <> []) as Hne by (apply is_empty_false; exact Ht).
    destruct fault as [e|].
    + rewrite (Hfault eq_refl e eq_refl).
      destruct (isinstance e Sqlite3Error) eqn:Ee.
      * split; [intros _; right; left; eauto|reflexivity].
      * split; [discriminate|].
        intros [H|[(e' & He' & Hs)|(H & _)]];
          [contradiction| |discriminate].
        injection He' as <-. congruence.
    + rewrite (find_by_token_working now token w Ht). cbn.
      split.
      * intros H. right. right. split; [reflexivity|]. intros r Hr Htok.
        destruct (find _ (sessions w)) eqn:Ef; [discriminate|].
        pose proof (proj1 (find_none_all _ _) Ef r Hr) as Hp.
        cbn in Hp. rewrite Htok, str_eqb_refl in Hp. cbn in Hp.
        apply Z.ltb_ge in Hp. exact Hp.
      * intros [H|[(e & He & _)|(_ & H)]];
          [contradiction|discriminate|].
        replace (find _ (sessions w)) with (@None session_row);
          [reflexivity|].
        symmetry. apply find_none_all. intros r Hr.
        destruct (str_eqb (s_token r) token) eqn:E; [|reflexivity].
        apply str_eqb_eq in E. cbn. apply Z.ltb_ge. auto.
  - intros e. destruct (is_empty token) eqn:Ht.
    { unfold Session.find_by_token. rewrite Ht. cbn.
      apply is_empty_true in Ht. split; [discriminate|].
      intros (H & _). contradiction. }
    assert (token <> []) as Hne by (apply is_empty_false; exact Ht).
    destruct fault as [e0|].
    + rewrite (Hfault eq_refl e0 eq_refl).
      destruct (isinstance e0 Sqlite3Error) eqn:Ee.
      * split; [discriminate|]. intros (_ & He & Hs).
        injection He as <-. congruence.
      * split.
        -- intros H. injection H as <-. auto.
        -- intros (_ & He & _). congruence.
    + rewrite (find_by_token_working now token w Ht). cbn.
      split; [discriminate|]. intros (_ & H & _). discriminate.
  - intros s. unfold Session.is_valid. apply Z.ltb_lt.
  - intros tok now0 f0 uid w0 s w1 Hc Hnow.
    apply create_returns in Hc.
    destruct Hc as (_ & _ & _ & _ & Hcr & Hex & _).
    rewrite Z.mul_0_l, Z.add_0_r in Hex.
    split.
    + unfold Session.is_valid. apply Z.ltb_ge. lia.
    + intros H. apply find_by_token_some in H.
      destruct H as (r & _ & Hs & _ & Hlt).
      rewrite Hs in Hex. cbn in Hex. lia.
Qed.

Lemma find_by_token_absent_witness :
  fst (Session.find_by_token (Demo.midnight + 2 * Datetime.us_per_day) None
         (lit "q0xYp3") Demo.with_session) = Return None
  /\ fst (Session.find_by_token (Demo.midnight + 1) (Some ValueError)
            (lit "q0xYp3") Demo.with_session) = Raise ValueError
  /\ Session.create Demo.token_urlsafe Demo.midnight None 1 0 Demo.empty_world
       = (Return (Some Demo.zero_hours_session), Demo.with_zero_hours_session)
  /\ Session.is_valid Demo.midnight Demo.zero_hours_session = false
  /\ fst (Session.find_by_token Demo.midnight None
            (Session.token Demo.zero_hours_session)
            Demo.with_zero_hours_session)
     <> Return (Some Demo.zero_hours_session).
Proof.
  split.
  { apply (proj1 (find_by_token_absent
                    (Demo.midnight + 2 * Datetime.us_per_day) None
                    (lit "q0xYp3") Demo.with_session)).
    right. right. split; [reflexivity|].
    intros r [<-|[]] _. vm_compute. discriminate. }
  split.
  { apply (proj1 (proj2 (find_by_token_absent (Demo.midnight + 1)
                           (Some ValueError) (lit "q0xYp3")
                           Demo.with_session))).
    split; [discriminate|]. split; reflexivity. }
  assert (Session.create Demo.token_urlsafe Demo.midnight None 1 0
            Demo.empty_world
          = (Return (Some Demo.zero_hours_session),
             Demo.with_zero_hours_session)) as Hc
    by (vm_compute; reflexivity).
  split; [exact Hc|].
  pose proof (find_by_token_absent Demo.midnight None
                (Session.token Demo.zero_hours_session)
                Demo.with_zero_hours_session) as (_ & _ & _ & Hz).
  apply (Hz _ _ _ _ _ _ _ Hc). apply Z.le_refl.
Defined.

(** C7 as stated fails: a stored, unexpired session with a non-empty token
    is reported absent when the driver raises an [sqlite3.Error]. *)
Lemma find_by_token_absent_on_database_error :
  fst (Session.find_by_token (Demo.midnight + 1) (Some OperationalError)
         (lit "q0xYp3") Demo.with_session) = Return None
  /\ lit "q0xYp3" <> []
  /\ (exists r, In r (sessions Demo.with_session)
                /\ s_token r = lit "q0xYp3")
  /\ ~ (forall r, In r (sessions Demo.with_session) ->
        s_token r = lit "q0xYp3" -> s_expires_at r <= Demo.midnight + 1).
Proof.
  split; [vm_compute; reflexivity|].
  split; [discriminate|].
  split.
  - eexists. split; [left; reflexivity|reflexivity].
  - intros H.
    specialize (H _ (or_introl eq_refl) eq_refl).
    vm_compute in H. apply H. reflexivity.
Qed.

(** ** The sessions table and the objects handed out *)

Lemma token_taken_In token w :
  Storage.token_taken token w = false -> ~ In token (map s_token (sessions w)).
Proof.
  unfold Storage.token_taken. intros H Hin.
  apply in_map_iff in Hin. destruct Hin as (r & Hr & Hin).
  assert (existsb (fun r => str_eqb (s_token r) token) (sessions w) = true)
    as Ht.
  { apply existsb_exists. exists r. split; [exact Hin|].
    apply str_eqb_eq. exact Hr. }
  congruence.
Qed.

Lemma NoDup_map_filter {A B} (f : A -> B) (p : A -> bool) l :
  NoDup (map f l) -> NoDup (map f (filter p l)).
Proof.
  induction l as [|a l IH]; cbn; intros H; [constructor|].
  inversion H as [|? ? Hnotin Hnd]; subst.
  destruct (p a); cbn; [|apply IH; exact Hnd].
  constructor; [|apply IH; exact Hnd].
  intros Hin. apply Hnotin.
  apply in_map_iff in Hin. destruct Hin as (x & Hx & Hin).
  apply filter_In in Hin. apply in_map_iff. exists x. tauto.
Qed.

(** A session returned by [create] is the image of a row of the table,
    and the insertion keeps the tokens of the table distinct. *)
Lemma create_stored tok now fault uid h w s w' :
  Session.create tok now fault uid h w = (Return (Some s), w') ->
  stored w' s /\ (tokens_unique w -> tokens_unique w').
Proof.
  intros H. apply create_returns in H.
  destruct H as (_ & _ & _ & Htok & _ & _ & Hfree & Hid & Hs).
  split.
  - eexists. split; [rewrite Hs; apply in_or_app; right; left; reflexivity|].
    cbn. split; [exact Hid|exact Htok].
  - unfold tokens_unique. intros Hu. rewrite Hs, map_app. cbn.
    apply NoDup_app; [exact Hu|constructor; [intros []|constructor]|].
    intros a Ha [<-|[]]. exact (token_taken_In _ _ Hfree Ha).
Qed.

Lemma find_by_token_stored now fault token w s :
  fst (Session.find_by_token now fault token w) = Return (Some s) ->
  stored w s.
Proof.
  intros H. apply find_by_token_some in H.
  destruct H as (r & Hin & -> & _). exists r. repeat split; auto.
Qed.

Lemma revoke_tokens_unique fault w s o w' s' :
  Session.revoke fault (w, s) = (o, (w', s')) ->
  tokens_unique w -> tokens_unique w'.
Proof.
  unfold tokens_unique, Session.revoke, Storage.delete_session. run.
  destruct (no_id (Session.id s)); cbn.
  - intros H. inversion H; subst. auto.
  - destruct fault as [e|]; cbn.
    + destruct (isinstance e Sqlite3Error); cbn; intros H; inversion H; subst;
        cbn; auto.
    + intros H. inversion H; subst. cbn. apply NoDup_map_filter.
Qed.

(** ** verify_password and User.check_password *)

Lemma verify_password_total ph h p w :
  exists b w', Utils.verify_password ph h p w = (Return b, w')
               /\ users w' = users w /\ sessions w' = sessions w.
Proof.
  unfold Utils.verify_password.
  destruct (is_empty h || is_empty p). { run. eauto. }
  run.
  destruct (ph_verify ph h p) as [ok|e].
  - destruct (ph_check_needs_rehash ph h) as [[|]|e]; cbn; eauto.
    rewrite isinstance_Exception.
    destruct (isinstance e VerifyMismatchError); [cbn; eauto|].
    destruct (isinstance e VerificationError || isinstance e InvalidHash);
      cbn; eauto.
  - rewrite isinstance_Exception.
    destruct (isinstance e VerifyMismatchError); [cbn; eauto|].
    destruct (isinstance e VerificationError || isinstance e InvalidHash);
      cbn; eauto.
Qed.

Lemma verify_password_false ph h p w :
  h = [] \/ p = [] \/ (exists e, ph_verify ph h p = Raise e) ->
  exists w', Utils.verify_password ph h p w = (Return false, w').
Proof.
  intros H. unfold Utils.verify_password.
  destruct (is_empty h || is_empty p) eqn:E. { run. eauto. }
  apply orb_false_iff in E. destruct E as [Eh Ep].
  apply is_empty_false in Eh. apply is_empty_false in Ep.
  destruct H as [H|[H|[e He]]]; [contradiction|contradiction|].
  run. rewrite He. rewrite isinstance_Exception.
  destruct (isinstance e VerifyMismatchError); [cbn; eauto|].
  destruct (isinstance e VerificationError || isinstance e InvalidHash);
    cbn; eauto.
Qed.

(** C8: [verify_password] returns a boolean for every pair of arguments and
    every behaviour of the hasher, it never raises; the answer is [False]
    when either argument is empty and when the hasher's [verify] raises
    (malformed hash, mismatch, or anything else).  [User.check_password]
    inherits both facts and leaves the account untouched. *)
Theorem verify_password_never_raises ph h p w :
  (exists b w', Utils.verify_password ph h p w = (Return b, w'))
  /\ (h = [] \/ p = [] \/ (exists e, ph_verify ph h p = Raise e) ->
      exists w', Utils.verify_password ph h p w = (Return false, w'))
  /\ (forall u, exists b w',
        User.check_password ph p (w, u) = (Return b, (w', u)))
  /\ (forall u,
        User.password_hash u = [] \/ p = []
        \/ (exists e, ph_verify ph (User.password_hash u) p = Raise e) ->
        exists w', User.check_password ph p (w, u) = (Return false, (w', u))).
Proof.
  split; [|split; [|split]].
  - destruct (verify_password_total ph h p w) as (b & w' & H & _). eauto.
  - apply verify_password_false.
  - intros u. unfold User.check_password. run.
    destruct (is_empty (User.password_hash u) || is_empty p).
    + exists false, w. destruct u; reflexivity.
    + cbn [fst snd].
      destruct (verify_password_total ph (User.password_hash u) p w)
        as (b & w' & H & _).
      rewrite H. eauto.
  - intros u H. unfold User.check_password. run.
    destruct (is_empty (User.password_hash u) || is_empty p).
    + exists w. destruct u; reflexivity.
    + cbn [fst snd].
      destruct (verify_password_false ph (User.password_hash u) p w H)
        as (w' & Hv).
      rewrite Hv. eauto.
Qed.

Lemma verify_password_never_raises_witness :
  ph_verify Demo.ph (lit "$s$Sup3rSecret!") (lit "wrong")
    = Raise VerifyMismatchError
  /\ (exists w', Utils.verify_password Demo.ph (lit "$s$Sup3rSecret!")
                   (lit "wrong") Demo.empty_world = (Return false, w'))
  /\ (exists w', User.check_password Demo.ph (lit "wrong")
                   (Demo.empty_world, Demo.alice)
                 = (Return false, (w', Demo.alice))).
Proof.
  pose proof (verify_password_never_raises Demo.ph (lit "$s$Sup3rSecret!")
                (lit "wrong") Demo.empty_world) as (_ & Hv & _ & Hc).
  split; [vm_compute; reflexivity|]. split.
  - apply Hv. right. right. exists VerifyMismatchError.
    vm_compute. reflexivity.
  - apply (Hc Demo.alice). right. right. exists VerifyMismatchError.
    vm_compute. reflexivity.
Defined.

(** ** User.save *)

Lemma save_collision w u :
  is_empty (User.username u) = false -> len (User.username u) <= 50 ->
  is_empty (User.email u) = false -> len (User.email u) <= 100 ->
  is_empty (User.password_hash u) = false ->
  Storage.username_or_email_taken (User.username u) (User.email u) w = true ->
  User.save None (w, u) =
    (Return false,
     ({| users := users w; sessions := sessions w;
         log := {| lvl := WARNING; msg := "Failed to create user" |}
                  :: log w |}, u)).
Proof.
  intros Hu Hul He Hel Hp Ht.
  unfold User.save, Storage.insert_user. run.
  rewrite Hu, He, Hp.
  replace (50 <? len (User.username u)) with false by (symmetry; apply Z.ltb_ge; lia).
  replace (100 <? len (User.email u)) with false by (symmetry; apply Z.ltb_ge; lia).
  cbn. rewrite Ht. cbn. destruct u; reflexivity.
Qed.

Lemma save_storage_fault e w u :
  is_empty (User.username u) = false -> len (User.username u) <= 50 ->
  is_empty (User.email u) = false -> len (User.email u) <= 100 ->
  is_empty (User.password_hash u) = false ->
  isinstance e IntegrityError = false ->
  isinstance e Sqlite3Error = true ->
  User.save (Some e) (w, u) =
    (Return false,
     ({| users := users w; sessions := sessions w;
         log := {| lvl := ERROR; msg := "Database error creating user" |}
                  :: log w |}, u)).
Proof.
  intros Hu Hul He Hel Hp Hi Hs.
  unfold User.save, Storage.insert_user. run.
  rewrite Hu, He, Hp.
  replace (50 <? len (User.username u)) with false by (symmetry; apply Z.ltb_ge; lia).
  replace (100 <? len (User.email u)) with false by (symmetry; apply Z.ltb_ge; lia).
  cbn. rewrite Hi, Hs. destruct u; reflexivity.
Qed.

(** C2, as the code has it: a creation attempt whose username or email is
    already taken makes [save] return [False], without raising and without
    changing the tables or the account object; a failure of the driver
    with any other [sqlite3.Error] makes it return the same [False] with
    the same final tables and object.  The two cases differ only in the
    record written to the log (WARNING against ERROR). *)
Theorem save_collision_and_fault w u e :
  is_empty (User.username u) = false -> len (User.username u) <= 50 ->
  is_empty (User.email u) = false -> len (User.email u) <= 100 ->
  is_empty (User.password_hash u) = false ->
  Storage.username_or_email_taken (User.username u) (User.email u) w = true ->
  isinstance e IntegrityError = false ->
  isinstance e Sqlite3Error = true ->
  exists wd wf,
    User.save None (w, u) = (Return false, (wd, u))
    /\ User.save (Some e) (w, u) = (Return false, (wf, u))
    /\ users wd = users w /\ sessions wd = sessions w
    /\ users wf = users w /\ sessions wf = sessions w
    /\ log wd = {| lvl := WARNING; msg := "Failed to create user" |} :: log w
    /\ log wf = {| lvl := ERROR; msg := "Database error creating user" |}
                  :: log w.
Proof.
  intros Hu Hul He Hel Hp Ht Hi Hs.
  eexists. eexists.
  split; [apply save_collision; assumption|].
  split; [apply save_storage_fault; assumption|].
  repeat split.
Qed.

Lemma save_collision_and_fault_witness :
  Storage.username_or_email_taken (User.username Demo.alice_again)
    (User.email Demo.alice_again) Demo.with_alice = true
  /\ exists wd wf,
      User.save None (Demo.with_alice, Demo.alice_again)
        = (Return false, (wd, Demo.alice_again))
      /\ User.save (Some OperationalError) (Demo.with_alice, Demo.alice_again)
           = (Return false, (wf, Demo.alice_again))
      /\ users wd = users Demo.with_alice
      /\ sessions wd = sessions Demo.with_alice
      /\ users wf = users Demo.with_alice
      /\ sessions wf = sessions Demo.with_alice
      /\ log wd = {| lvl := WARNING; msg := "Failed to create user" |}
                    :: log Demo.with_alice
      /\ log wf = {| lvl := ERROR; msg := "Database error creating user" |}
                    :: log Demo.with_alice.
Proof.
  split; [vm_compute; reflexivity|].
  apply (save_collision_and_fault Demo.with_alice Demo.alice_again
           OperationalError);
    try reflexivity; vm_compute; discriminate.
Defined.

(** C2 as stated fails: for the caller, a uniqueness violation and a
    failure of the driver are the same observation, the value [False] and
    an unchanged account object. *)
Lemma save_collision_same_as_fault :
  Storage.username_or_email_taken (User.username Demo.alice_again)
    (User.email Demo.alice_again) Demo.with_alice = true
  /\ fst (User.save None (Demo.with_alice, Demo.alice_again)) = Return false
  /\ fst (User.save (Some OperationalError)
            (Demo.with_alice, Demo.alice_again)) = Return false
  /\ snd (snd (User.save None (Demo.with_alice, Demo.alice_again)))
     = snd (snd (User.save (Some OperationalError)
                   (Demo.with_alice, Demo.alice_again))).
Proof. repeat split; vm_compute; reflexivity. Qed.

(** ** User.set_password and User.update_password *)

Lemma hash_password_run ph salt p h w :
  is_empty p = false -> len p <= 200 ->
  ph_hash ph salt p = Return h ->
  Utils.hash_password ph salt p w =
    (Return h,
     {| users := users w; sessions := sessions w;
        log := {| lvl := DEBUG; msg := "Password hashed successfully" |}
                 :: log w |}).
Proof.
  intros He Hl Hh. unfold Utils.hash_password. rewrite He.
  replace (200 <? len p) with false by (symmetry; apply Z.ltb_ge; lia).
  run. rewrite Hh. reflexivity.
Qed.

Lemma set_password_run ph salt p h w u :
  8 <= len p <= 200 ->
  ph_hash ph salt p = Return h ->
  exists w',
    User.set_password ph salt p (w, u)
      = (Return tt, (w', User.with_password_hash h u))
    /\ users w' = users w /\ sessions w' = sessions w.
Proof.
  intros Hl Hh.
  assert (is_empty p = false) as He.
  { destruct p; [cbn in Hl; lia|reflexivity]. }
  unfold User.set_password. rewrite He.
  replace (len p <? 8) with false by (symmetry; apply Z.ltb_ge; lia).
  replace (200 <? len p) with false by (symmetry; apply Z.ltb_ge; lia).
  cbn [orb]. unfold bind at 1, on_fst at 1. cbn [fst snd].
  rewrite (hash_password_run ph salt p h w He (proj2 Hl) Hh).
  run. eexists. repeat split.
Qed.

Lemma set_password_rejects ph salt p w u :
  len p < 8 \/ 200 < len p ->
  User.set_password ph salt p (w, u) = (Raise ValueError, (w, u)).
Proof.
  intros H. unfold User.set_password.
  destruct (is_empty p || (len p <? 8)) eqn:E1; [reflexivity|].
  apply orb_false_iff in E1. destruct E1 as [_ E1]. apply Z.ltb_ge in E1.
  replace (200 <? len p) with true by (symmetry; apply Z.ltb_lt; lia).
  reflexivity.
Qed.

(** C9: when [update_password] returns [False] because the database write
    raised, for an account with an identity and a new password of valid
    length that the hasher turned into [h], the account object already
    carries [h] as its [password_hash] while the table still holds the old
    hash; when it returns [False] because the account has no identity or
    the password fails validation, the object is unchanged. *)
Theorem update_password_failure ph salt pw w u :
  (forall e h,
      no_id (User.id u) = false -> 8 <= len pw <= 200 ->
      ph_hash ph salt pw = Return h ->
      exists w',
        User.update_password ph salt (Some e) pw (w, u)
          = (Return false, (w', User.with_password_hash h u))
        /\ users w' = users w)
  /\ (forall fault,
      no_id (User.id u) = true \/ len pw < 8 \/ 200 < len pw ->
      exists w',
        User.update_password ph salt fault pw (w, u)
          = (Return false, (w', u))
        /\ users w' = users w).
Proof.
  split.
  - intros e h Hid Hl Hh.
    destruct (set_password_run ph salt pw h w u Hl Hh) as (w1 & Hs & Hu1 & _).
    unfold User.update_password.
    unfold bind at 1, self at 1. cbn [fst snd]. rewrite Hid.
    unfold try_except, bind at 1. rewrite Hs.
    unfold Storage.update_user_password. run.
    rewrite isinstance_Exception.
    destruct (isinstance e ValueError); [eexists; split; [reflexivity|exact Hu1]|].
    destruct (isinstance e Sqlite3Error); eexists; split;
      try reflexivity; exact Hu1.
  - intros fault H.
    unfold User.update_password.
    unfold bind at 1, self at 1. cbn [fst snd].
    destruct (no_id (User.id u)) eqn:Hid.
    { run. eexists. split; [destruct u; reflexivity|reflexivity]. }
    destruct H as [H|H]; [discriminate|].
    unfold try_except, bind at 1.
    rewrite (set_password_rejects ph salt pw w u H).
    cbn. run. eexists. split; [destruct u; reflexivity|reflexivity].
Qed.

Lemma update_password_failure_witness :
  no_id (User.id Demo.alice_saved) = false
  /\ 8 <= len (lit "NewSecret99") <= 200
  /\ ph_hash Demo.ph (lit "s2") (lit "NewSecret99")
       = Return (lit "$s2$NewSecret99")
  /\ (exists w',
        User.update_password Demo.ph (lit "s2") (Some OperationalError)
          (lit "NewSecret99") (Demo.with_alice, Demo.alice_saved)
          = (Return false,
             (w', User.with_password_hash (lit "$s2$NewSecret99")
                    Demo.alice_saved))
        /\ users w' = users Demo.with_alice)
  /\ (exists w',
        User.update_password Demo.ph (lit "s2") None (lit "short")
          (Demo.with_alice, Demo.alice_saved)
          = (Return false, (w', Demo.alice_saved))
        /\ users w' = users Demo.with_alice).
Proof.
  split; [reflexivity|].
  split; [vm_compute; split; discriminate|].
  split; [reflexivity|].
  split.
  - apply (proj1 (update_password_failure Demo.ph (lit "s2")
                    (lit "NewSecret99") Demo.with_alice Demo.alice_saved)
             OperationalError (lit "$s2$NewSecret99")).
    + reflexivity.
    + vm_compute. split; discriminate.
    + reflexivity.
  - apply (proj2 (update_password_failure Demo.ph (lit "s2")
                    (lit "short") Demo.with_alice Demo.alice_saved) None).
    right. left. vm_compute. reflexivity.
Defined.

(** ** validate_email *)

Lemma rep_spec cls k s : forall lo pos,
  Re.rep cls lo k pos s = true <->
  exists s1 s2, s = s1 ++ s2 /\ (lo <= List.length s1)%nat
                /\ forallb (Re.in_class cls) s1 = true
                /\ k (pos + List.length s1)%nat s2 = true.
Proof.
  induction s as [|c s IH]; intros lo pos.
  - destruct lo; cbn.
    + split.
      * intros H. exists [], []. cbn. rewrite Nat.add_0_r. auto.
      * intros (s1 & s2 & Hs & _ & _ & Hk).
        symmetry in Hs. apply app_eq_nil in Hs. destruct Hs as [-> ->].
        cbn in Hk. rewrite Nat.add_0_r in Hk. exact Hk.
    + split; [discriminate|].
      intros (s1 & s2 & Hs & Hlo & _).
      symmetry in Hs. apply app_eq_nil in Hs. destruct Hs as [-> ->].
      cbn in Hlo. lia.
  - destruct lo; cbn [Re.rep].
    + rewrite orb_true_iff, andb_true_iff, IH. split.
      * intros [[Hc (s1 & s2 & -> & _ & Hall & Hk)]|Hk].
        -- exists (c :: s1), s2. cbn. rewrite Hc, Hall.
           rewrite Nat.add_succ_r. repeat split; auto. lia.
        -- exists [], (c :: s). cbn. rewrite Nat.add_0_r. auto.
      * intros (s1 & s2 & Hs & _ & Hall & Hk).
        destruct s1 as [|c1 s1].
        -- right. cbn in Hs, Hk. rewrite Nat.add_0_r in Hk. subst s2. exact Hk.
        -- left. cbn in Hs, Hall, Hk. injection Hs as <- ->.
           apply andb_true_iff in Hall. destruct Hall as [Hc Hall].
           split; [exact Hc|]. exists s1, s2.
           rewrite Nat.add_succ_r in Hk. repeat split; auto. lia.
    + rewrite andb_true_iff, IH. split.
      * intros [Hc (s1 & s2 & -> & Hlo & Hall & Hk)].
        exists (c :: s1), s2. cbn. rewrite Hc, Hall.
        rewrite Nat.add_succ_r. repeat split; auto. lia.
      * intros (s1 & s2 & Hs & Hlo & Hall & Hk).
        destruct s1 as [|c1 s1]; [cbn in Hlo; lia|].
        cbn in Hs, Hlo, Hall, Hk. injection Hs as <- ->.
        apply andb_true_iff in Hall. destruct Hall as [Hc Hall].
        split; [exact Hc|]. exists s1, s2.
        rewrite Nat.add_succ_r in Hk. repeat split; auto. lia.
Qed.

Lemma local_class c :
  Re.in_class [Utils.lower; Utils.upper; Utils.digit; Re.One (ord ".");
               Re.One (ord "_"); Re.One (ord "%"); Re.One (ord "+");
               Re.One (ord "-")] c = is_local_char c.
Proof.
  unfold is_local_char, is_letter, is_digit. cbn.
  rewrite orb_false_r, !orb_assoc.
  rewrite (orb_comm ((97 <=? c) && (c <=? 122))). reflexivity.
Qed.

Lemma domain_class c :
  Re.in_class [Utils.lower; Utils.upper; Utils.digit; Re.One (ord ".");
               Re.One (ord "-")] c = is_domain_char c.
Proof.
  unfold is_domain_char, is_letter, is_digit. cbn.
  rewrite orb_false_r, !orb_assoc.
  rewrite (orb_comm ((97 <=? c) && (c <=? 122))). reflexivity.
Qed.

Lemma letter_class c :
  Re.in_class [Utils.lower; Utils.upper] c = is_letter c.
Proof.
  unfold is_letter. cbn. rewrite orb_false_r. apply orb_comm.
Qed.

Lemma forallb_ext_eq {A} (f g : A -> bool) l :
  (forall x, f x = g x) -> forallb f l = forallb g l.
Proof.
  intros H. induction l as [|a l IH]; cbn; [reflexivity|].
  rewrite H, IH. reflexivity.
Qed.

Lemma nonempty_length {A} (l : list A) : l <> [] <-> (1 <= List.length l)%nat.
Proof. destruct l; cbn; split; try congruence; lia. Qed.

(** The regular expression matches the addresses of the pattern and the
    same addresses followed by one newline, nothing else. *)
Lemma email_regex_matches s :
  Re.match_ Utils.email_regex s = true <->
  email_pattern s \/ exists s', s = s' ++ [10] /\ email_pattern s'.
Proof.
  unfold Re.match_, Utils.email_regex.
  cbn [Re.match_here Nat.eqb andb]. rewrite rep_spec. split.
  - intros (l & r1 & -> & Hl & Hlall & Hk).
    cbn [Re.match_here] in Hk.
    destruct r1 as [|x r1]; [discriminate|].
    apply andb_true_iff in Hk. destruct Hk as [Hx Hk]. apply Z.eqb_eq in Hx.
    apply rep_spec in Hk. destruct Hk as (d & r2 & -> & Hd & Hdall & Hk).
    cbn [Re.match_here] in Hk.
    destruct r2 as [|y r2]; [discriminate|].
    apply andb_true_iff in Hk. destruct Hk as [Hy Hk]. apply Z.eqb_eq in Hy.
    apply rep_spec in Hk. destruct Hk as (t & r3 & -> & Ht & Htall & Hk).
    subst x y.
    rewrite (forallb_ext_eq _ _ _ local_class) in Hlall.
    rewrite (forallb_ext_eq _ _ _ domain_class) in Hdall.
    rewrite (forallb_ext_eq _ _ _ letter_class) in Htall.
    assert (email_pattern (l ++ [64] ++ d ++ [46] ++ t)) as Hp.
    { exists l, d, t. repeat split; auto; apply nonempty_length; auto. }
    cbn [Re.match_here] in Hk.
    destruct r3 as [|z r3].
    + left. rewrite app_nil_r. exact Hp.
    + destruct r3; [|destruct z as [|[| |]|]; try discriminate;
                     repeat (match goal with
                             | H : match ?p with _ => _ end = true |- _ =>
                                 destruct p; try discriminate
                             end)].
      assert (z = 10) as ->.
      { destruct z as [|p|p]; try discriminate.
        repeat (destruct p as [p|p|]; try discriminate). reflexivity. }
      right. exists (l ++ [64] ++ d ++ [46] ++ t). split; [|exact Hp].
      cbn. rewrite <- !app_assoc. cbn. rewrite <- !app_assoc. reflexivity.
  - assert (forall l d t r3,
               l <> [] -> forallb is_local_char l = true ->
               d <> [] -> forallb is_domain_char d = true ->
               (2 <= List.length t)%nat -> forallb is_letter t = true ->
               r3 = [] \/ r3 = [10] ->
               exists s1 s2,
                 (l ++ [64] ++ d ++ [46] ++ t) ++ r3 = s1 ++ s2
                 /\ (1 <= List.length s1)%nat
                 /\ forallb (Re.in_class
                      [Utils.lower; Utils.upper; Utils.digit;
                       Re.One (ord "."); Re.One (ord "_"); Re.One (ord "%");
                       Re.One (ord "+"); Re.One (ord "-")]) s1 = true
                 /\ Re.match_here
                      [Re.Chr (ord "@");
                       Re.Rep [Utils.lower; Utils.upper; Utils.digit;
                               Re.One (ord "."); Re.One (ord "-")] 1;
                       Re.Chr (ord "."); Re.Rep [Utils.lower; Utils.upper] 2;
                       Re.Eol] (0 + List.length s1) s2 = true) as Hmk.
    { intros l d t r3 Hl Hlall Hd Hdall Ht Htall Hr.
      exists l, ([64] ++ d ++ [46] ++ t ++ r3).
      split; [rewrite <- !app_assoc; reflexivity|].
      split; [apply nonempty_length; exact Hl|].
      split; [rewrite (forallb_ext_eq _ _ _ local_class); exact Hlall|].
      cbn [Re.match_here app]. change (64 =? ord "@") with true. cbn [andb].
      apply rep_spec. exists d, ([46] ++ t ++ r3).
      split; [reflexivity|].
      split; [apply nonempty_length; exact Hd|].
      split; [rewrite (forallb_ext_eq _ _ _ domain_class); exact Hdall|].
      cbn [Re.match_here app]. change (46 =? ord ".") with true. cbn [andb].
      apply rep_spec. exists t, r3.
      split; [reflexivity|]. split; [exact Ht|].
      split; [rewrite (forallb_ext_eq _ _ _ letter_class); exact Htall|].
      destruct Hr as [->| ->]; reflexivity. }
    intros [(l & d & t & -> & Hl & Hlall & Hd & Hdall & Ht & Htall)
           |(s' & -> & l & d & t & -> & Hl & Hlall & Hd & Hdall & Ht & Htall)].
    + rewrite <- (app_nil_r (l ++ [64] ++ d ++ [46] ++ t)).
      apply Hmk; auto.
    + apply Hmk; auto.
Qed.

(** What [validate_email] accepts: the addresses of the pattern of at most
    254 characters, and also such an address followed by a newline (of at
    most 254 characters in all). *)
Lemma validate_email_accepts s :
  Utils.validate_email s = true <->
  len s <= 254
  /\ (email_pattern s \/ exists s', s = s' ++ [10] /\ email_pattern s').
Proof.
  unfold Utils.validate_email.
  destruct (is_empty s) eqn:Es.
  - apply is_empty_true in Es. subst s. cbn. split; [discriminate|].
    intros [_ [(l & d & t & H & _)|(s' & H & _)]].
    + destruct l; discriminate.
    + destruct s'; discriminate.
  - cbn [orb]. destruct (254 <? len s) eqn:El.
    + apply Z.ltb_lt in El. split; [discriminate|]. intros [H _]. lia.
    + apply Z.ltb_ge in El. rewrite email_regex_matches. tauto.
Qed.

Lemma email_pattern_ends_with_letter s :
  email_pattern s -> exists s0 c, s = s0 ++ [c] /\ is_letter c = true.
Proof.
  intros (l & d & t & -> & _ & _ & _ & _ & Ht & Hall).
  destruct (exists_last (l := t)) as (t0 & c & ->).
  { intros ->. cbn in Ht. lia. }
  exists (l ++ [64] ++ d ++ [46] ++ t0), c. split.
  - rewrite <- !app_assoc. reflexivity.
  - rewrite forallb_app in Hall. apply andb_true_iff in Hall.
    destruct Hall as [_ Hc]. cbn in Hc. rewrite andb_true_r in Hc. exact Hc.
Qed.

(** The examples of the docstring and of the specification. *)
Lemma validate_email_examples :
  Utils.validate_email (lit "user@example.com") = true
  /\ Utils.validate_email (lit "invalid.email") = false
  /\ Utils.validate_email (lit "user@") = false
  /\ Utils.validate_email [] = false.
Proof. repeat split; vm_compute; reflexivity. Qed.

(** C6 fails on the code at an address followed by a newline:
    [validate_email("user@example.com\n")] is [True], although the string
    is 17 characters long and does not match [local@domain.tld], its last
    character not being a letter.  ([$] also matches just before a final
    newline.) *)
Theorem validate_email_trailing_newline :
  Utils.validate_email (lit "user@example.com" ++ [10]) = true
  /\ len (lit "user@example.com" ++ [10]) <= 254
  /\ ~ email_pattern (lit "user@example.com" ++ [10]).
Proof.
  split; [vm_compute; reflexivity|].
  split; [vm_compute; discriminate|].
  intros H. apply email_pattern_ends_with_letter in H.
  destruct H as (s0 & c & Hs & Hc).
  apply app_inj_tail in Hs. destruct Hs as [_ <-].
  vm_compute in Hc. discriminate.
Qed.

(** ** sanitize_input *)

Lemma sanitize_input_run x m w :
  exists w', Utils.sanitize_input x m w = (Return (sanitized x m), w')
             /\ users w' = users w /\ sessions w' = sessions w.
Proof.
  unfold Utils.sanitize_input, sanitized. fold (normalized x).
  destruct (is_empty x). { run. eauto. }
  run.
  destruct (m <? len (normalized x)); cbn;
    match goal with
    | |- context [str_eqb ?a ?b] => destruct (str_eqb a b)
    end; cbn; eauto.
Qed.

Lemma word_char_not_space c : word_char c = true -> (c =? 32) = false.
Proof.
  unfold word_char. intros H.
  destruct (c =? 32) eqn:E; [|reflexivity].
  apply Z.eqb_eq in E. subst c. discriminate.
Qed.

Lemma ends_with_space_cons c s :
  s <> [] -> ends_with_space (c :: s) = ends_with_space s.
Proof. destruct s; [congruence|reflexivity]. Qed.

Lemma ends_with_space_app s t :
  t <> [] -> ends_with_space (s ++ t) = ends_with_space t.
Proof.
  intros Ht. induction s as [|c s IH]; [reflexivity|].
  cbn [app]. rewrite ends_with_space_cons; [exact IH|].
  destruct s; [exact Ht|discriminate].
Qed.

Lemma split_from_trailing_space s : forall cur,
  split_from cur (s ++ [32]) = split_from cur s.
Proof.
  induction s as [|c s IH]; intros cur.
  - cbn. destruct cur; reflexivity.
  - cbn. destruct (isspace c).
    + destruct cur; rewrite IH; reflexivity.
    + apply IH.
Qed.

(** Splitting a tidy text that does not end with a space and joining the
    words with single spaces gives the text back. *)
Lemma join_split_tidy s : forall cur,
  tidy_from (is_empty cur) s = true ->
  ends_with_space s = false ->
  join [32] (split_from cur s) = rev cur ++ s.
Proof.
  induction s as [|c s IH]; intros cur Ht He.
  - cbn. destruct cur; [reflexivity|]. rewrite app_nil_r. reflexivity.
  - cbn [tidy_from] in Ht. cbn [split_from].
    destruct (c =? 32) eqn:Ec.
    + apply Z.eqb_eq in Ec. subst c.
      apply andb_true_iff in Ht. destruct Ht as [Hb Ht].
      destruct cur as [|c0 cur]; [discriminate|].
      change (isspace 32) with true. cbn iota.
      assert (s <> []) as Hs by (intros ->; discriminate).
      rewrite ends_with_space_cons in He by exact Hs.
      specialize (IH [] Ht He). cbn [rev app] in IH.
      destruct (split_from [] s) as [|w ws] eqn:Esp.
      { cbn in IH. congruence. }
      change (join [32] (rev (c0 :: cur) :: w :: ws))
        with (rev (c0 :: cur) ++ [32] ++ join [32] (w :: ws)).
      rewrite IH. reflexivity.
    + apply andb_true_iff in Ht. destruct Ht as [Hc Ht].
      assert (isspace c = false) as Hsp.
      { unfold word_char in Hc. destruct (isspace c); [discriminate|reflexivity]. }
      rewrite Hsp.
      assert (ends_with_space s = false) as He'.
      { destruct s; [reflexivity|]. rewrite ends_with_space_cons in He; [exact He|discriminate]. }
      rewrite (IH (c :: cur) Ht He'). cbn [rev].
      rewrite <- app_assoc. reflexivity.
Qed.

Lemma tidy_filters s : forall b,
  tidy_from b s = true ->
  remove_char 0 s = s /\ filter Utils.keep_char s = s.
Proof.
  unfold remove_char.
  induction s as [|c s IH]; intros b Ht; [split; reflexivity|].
  cbn [tidy_from] in Ht. destruct (c =? 32) eqn:Ec.
  - apply Z.eqb_eq in Ec. subst c.
    apply andb_true_iff in Ht. destruct Ht as [_ Ht].
    destruct (IH _ Ht) as [H1 H2]. cbn [filter].
    change (negb (32 =? 0)) with true. change (Utils.keep_char 32) with true.
    cbn iota. rewrite H1, H2. split; reflexivity.
  - apply andb_true_iff in Ht. destruct Ht as [Hc Ht].
    destruct (IH _ Ht) as [H1 H2]. cbn [filter].
    unfold word_char in Hc.
    apply andb_true_iff in Hc. destruct Hc as [Hc Hz].
    apply andb_true_iff in Hc. destruct Hc as [_ Hk].
    rewrite Hz, Hk, H1, H2. split; reflexivity.
Qed.

Lemma tidy_firstn s : forall n b,
  tidy_from b s = true -> tidy_from b (firstn n s) = true.
Proof.
  induction s as [|c s IH]; intros n b Ht.
  - destruct n; reflexivity.
  - destruct n; [reflexivity|]. cbn [firstn tidy_from] in *.
    destruct (c =? 32).
    + apply andb_true_iff in Ht. destruct Ht as [Hb Ht].
      rewrite Hb, (IH _ _ Ht). reflexivity.
    + apply andb_true_iff in Ht. destruct Ht as [Hc Ht].
      rewrite Hc, (IH _ _ Ht). reflexivity.
Qed.

(** A tidy text that ends with a space is a tidy text that does not,
    followed by that space. *)
Lemma tidy_trailing_space s : forall b,
  tidy_from b s = true -> ends_with_space s = true ->
  exists s', s = s' ++ [32] /\ tidy_from b s' = true
             /\ ends_with_space s' = false.
Proof.
  induction s as [|c s IH]; intros b Ht He; [discriminate|].
  destruct s as [|c2 s].
  - cbn in He. apply Z.eqb_eq in He. subst c.
    exists []. repeat split.
  - rewrite ends_with_space_cons in He by discriminate.
    cbn [tidy_from] in Ht. destruct (c =? 32) eqn:Ec.
    + apply andb_true_iff in Ht. destruct Ht as [Hb Ht].
      destruct (IH _ Ht He) as (s' & Hs & Ht' & He').
      exists (c :: s'). rewrite Hs. split; [reflexivity|].
      cbn [tidy_from]. rewrite Ec, Hb, Ht'. split; [reflexivity|].
      destruct s' as [|c3 s'].
      { cbn in Hs. injection Hs as -> ->. discriminate. }
      rewrite ends_with_space_cons by discriminate. exact He'.
    + apply andb_true_iff in Ht. destruct Ht as [Hc Ht].
      destruct (IH _ Ht He) as (s' & Hs & Ht' & He').
      exists (c :: s'). rewrite Hs. split; [reflexivity|].
      cbn [tidy_from]. rewrite Ec, Hc, Ht'. split; [reflexivity|].
      destruct s' as [|c3 s']; [cbn; exact Ec|].
      rewrite ends_with_space_cons by discriminate. exact He'.
Qed.

Lemma split_from_words s : forall cur,
  forallb word_char cur = true ->
  Forall (fun c => Utils.keep_char c = true /\ (c =? 0) = false) s ->
  Forall (fun w => w <> [] /\ forallb word_char w = true) (split_from cur s).
Proof.
  assert (forall c cur, forallb word_char (c :: cur) = true ->
            rev (c :: cur) <> [] /\ forallb word_char (rev (c :: cur)) = true)
    as Hrev.
  { intros c cur H. split.
    - cbn. intros E. apply app_eq_nil in E. destruct E; discriminate.
    - apply forallb_forall. intros y Hy. apply in_rev in Hy.
      revert y Hy. apply forallb_forall. exact H. }
  induction s as [|c s IH]; intros cur Hcur Hs.
  - cbn. destruct cur; constructor; [apply Hrev; exact Hcur|constructor].
  - inversion Hs as [|? ? [Hk Hz] Hs']; subst. cbn [split_from].
    destruct (isspace c) eqn:Esp.
    + destruct cur as [|c0 cur]; [apply IH; auto|].
      constructor; [apply Hrev; exact Hcur|apply IH; auto].
    + apply IH; [|exact Hs'].
      cbn [forallb]. unfold word_char at 1. rewrite Esp, Hk, Hz, Hcur.
      reflexivity.
Qed.

Lemma tidy_word_app w t : forall b,
  forallb word_char w = true ->
  tidy_from b (w ++ t)
  = tidy_from (match w with [] => b | _ => false end) t.
Proof.
  induction w as [|c w IH]; intros b Hw; [reflexivity|].
  cbn [forallb] in Hw. apply andb_true_iff in Hw. destruct Hw as [Hc Hw].
  cbn [app tidy_from]. rewrite (word_char_not_space c Hc), Hc. cbn [andb].
  rewrite (IH false Hw). destruct w; reflexivity.
Qed.

Lemma word_no_trailing_space w :
  forallb word_char w = true -> ends_with_space w = false.
Proof.
  induction w as [|c w IH]; intros Hw; [reflexivity|].
  cbn [forallb] in Hw. apply andb_true_iff in Hw. destruct Hw as [Hc Hw].
  destruct w as [|c2 w]; [cbn; apply word_char_not_space; exact Hc|].
  rewrite ends_with_space_cons by discriminate. apply IH. exact Hw.
Qed.

Lemma join_words_tidy ws :
  Forall (fun w => w <> [] /\ forallb word_char w = true) ws ->
  tidy_from true (join [32] ws) = true
  /\ ends_with_space (join [32] ws) = false.
Proof.
  induction ws as [|w ws IH]; intros H; [split; reflexivity|].
  inversion H as [|? ? [Hne Hw] Hws]; subst.
  destruct ws as [|w2 ws].
  - cbn [join]. split.
    + rewrite <- (app_nil_r w), (tidy_word_app w [] true Hw).
      destruct w; reflexivity.
    + apply word_no_trailing_space. exact Hw.
  - destruct (IH Hws) as [Ht He].
    change (join [32] (w :: w2 :: ws))
      with (w ++ 32 :: join [32] (w2 :: ws)).
    assert (join [32] (w2 :: ws) <> []) as Hj.
    { inversion Hws as [|? ? [Hne2 _] _]; subst.
      destruct ws; cbn [join]; [exact Hne2|].
      intros E. apply app_eq_nil in E. destruct E. contradiction. }
    split.
    + rewrite (tidy_word_app w _ true Hw).
      destruct w; [contradiction|]. cbn [tidy_from].
      change (32 =? 32) with true. cbn iota. exact Ht.
    + rewrite ends_with_space_app by discriminate.
      rewrite ends_with_space_cons by exact Hj. exact He.
Qed.

Lemma normalized_tidy x :
  tidy_from true (normalized x) = true
  /\ ends_with_space (normalized x) = false.
Proof.
  unfold normalized, split. apply join_words_tidy.
  apply split_from_words; [reflexivity|].
  apply Forall_forall. intros c Hc.
  apply filter_In in Hc. destruct Hc as [Hc Hk].
  unfold remove_char in Hc. apply filter_In in Hc. destruct Hc as [_ Hz].
  split; [exact Hk|]. destruct (c =? 0); [discriminate|reflexivity].
Qed.

Lemma normalized_fixed r :
  tidy_from true r = true -> ends_with_space r = false -> normalized r = r.
Proof.
  intros Ht He. unfold normalized.
  destruct (tidy_filters r true Ht) as [-> ->].
  unfold split. rewrite (join_split_tidy r [] Ht He). reflexivity.
Qed.

Lemma normalized_drops_space r :
  tidy_from true r = true -> ends_with_space r = true ->
  exists r', r = r' ++ [32] /\ normalized r = r'.
Proof.
  intros Ht He.
  destruct (tidy_trailing_space r true Ht He) as (r' & Hr & Ht' & He').
  exists r'. split; [exact Hr|].
  unfold normalized. destruct (tidy_filters r true Ht) as [-> ->].
  unfold split. rewrite Hr, split_from_trailing_space.
  rewrite (join_split_tidy r' [] Ht' He'). reflexivity.
Qed.

Lemma slice_to_length s m : (List.length (slice_to s m) <= List.length s)%nat.
Proof.
  unfold slice_to. destruct (m <? 0); rewrite length_firstn; lia.
Qed.

Lemma sanitized_tidy x m : tidy_from true (sanitized x m) = true.
Proof.
  unfold sanitized. destruct (is_empty x); [reflexivity|].
  destruct (normalized_tidy x) as [Ht _].
  destruct (m <? len (normalized x)); [|exact Ht].
  unfold slice_to. destruct (m <? 0); apply tidy_firstn; exact Ht.
Qed.

Lemma sanitized_within x m : 0 <= m -> len (sanitized x m) <= m.
Proof.
  intros Hm. unfold sanitized. destruct (is_empty x); [cbn; lia|].
  destruct (m <? len (normalized x)) eqn:E.
  - unfold slice_to. replace (m <? 0) with false by (symmetry; apply Z.ltb_ge; lia).
    unfold len. rewrite length_firstn. lia.
  - apply Z.ltb_ge in E. exact E.
Qed.

(** The second pass over a sanitized text. *)
Lemma sanitized_again x m :
  sanitized (sanitized x m) m = sanitized x m
  <-> sanitized x m = []
      \/ (0 <= m /\ ends_with_space (sanitized x m) = false).
Proof.
  set (r := sanitized x m).
  assert (tidy_from true r = true) as Ht by apply sanitized_tidy.
  destruct r as [|c r0] eqn:Er; [cbn; tauto|].
  rewrite <- Er in *. assert (r <> []) as Hne by (rewrite Er; discriminate).
  assert (is_empty r = false) as Hie by (rewrite Er; reflexivity).
  unfold sanitized at 1. rewrite Hie.
  destruct (ends_with_space r) eqn:He.
  - destruct (normalized_drops_space r Ht He) as (r' & Hr & ->).
    assert (List.length r = S (List.length r')) as Hlen
      by (rewrite Hr, length_app; cbn; lia).
    split.
    + intros H. exfalso.
      destruct (m <? len r').
      * pose proof (slice_to_length r' m) as Hle. rewrite H in Hle. lia.
      * rewrite <- H in Hlen. lia.
    + intros [H|[_ H]]; [contradiction|discriminate].
  - rewrite (normalized_fixed r Ht He).
    destruct (m <? 0) eqn:Hm.
    + apply Z.ltb_lt in Hm.
      replace (m <? len r) with true
        by (symmetry; apply Z.ltb_lt; pose proof (len_nonneg r); lia).
      split.
      * intros H. exfalso.
        assert (List.length (slice_to r m) < List.length r)%nat as Hlt.
        { unfold slice_to. replace (m <? 0) with true by (symmetry; apply Z.ltb_lt; lia).
          rewrite length_firstn. unfold len.
          destruct r; [contradiction|]. cbn [List.length]. lia. }
        rewrite H in Hlt. lia.
      * intros [H|[H _]]; [contradiction|lia].
    + apply Z.ltb_ge in Hm.
      pose proof (sanitized_within x m Hm) as Hw. fold r in Hw.
      replace (m <? len r) with false by (symmetry; apply Z.ltb_ge; lia).
      split; auto.
Qed.

(** The example of the specification: the NUL is removed and the runs of
    whitespace become single spaces. *)
Lemma sanitize_input_example :
  fst (Utils.sanitize_input
         (lit "Hello<script>" ++ [0; 10; 10; 10] ++ lit "World") 1000
         Demo.empty_world)
  = Return (lit "Hello<script> World").
Proof. vm_compute. reflexivity. Qed.

(** C3, as the code has it: [sanitize_input] always returns, and applying
    it again with the same limit gives the same text exactly when the
    first result is empty, or the limit is not negative and the first
    result does not end with a space.  In particular it is idempotent
    whenever the whitespace-normalised form fits the limit, so that
    nothing is cut; a cut just after a separating space leaves a text that
    a second pass shortens. *)
Theorem sanitize_input_twice x m w :
  exists r w1 r2 w2,
    Utils.sanitize_input x m w = (Return r, w1)
    /\ Utils.sanitize_input r m w1 = (Return r2, w2)
    /\ (r2 = r <-> r = [] \/ (0 <= m /\ ends_with_space r = false))
    /\ (len (normalized x) <= m -> r2 = r).
Proof.
  destruct (sanitize_input_run x m w) as (w1 & H1 & _).
  destruct (sanitize_input_run (sanitized x m) m w1) as (w2 & H2 & _).
  exists (sanitized x m), w1, (sanitized (sanitized x m) m), w2.
  split; [exact H1|]. split; [exact H2|].
  split; [apply sanitized_again|].
  intros Hfit. apply sanitized_again.
  unfold sanitized. destruct (is_empty x); [left; reflexivity|].
  replace (m <? len (normalized x)) with false
    by (symmetry; apply Z.ltb_ge; exact Hfit).
  right. split.
  - pose proof (len_nonneg (normalized x)). lia.
  - apply normalized_tidy.
Qed.

Lemma sanitize_input_twice_witness :
  len (normalized (lit "  Hello   World ")) <= 1000
  /\ exists r w1 r2 w2,
      Utils.sanitize_input (lit "  Hello   World ") 1000 Demo.empty_world
        = (Return r, w1)
      /\ Utils.sanitize_input r 1000 w1 = (Return r2, w2)
      /\ r2 = r.
Proof.
  assert (len (normalized (lit "  Hello   World ")) <= 1000) as Hfit
    by (vm_compute; discriminate).
  split; [exact Hfit|].
  destruct (sanitize_input_twice (lit "  Hello   World ") 1000
              Demo.empty_world) as (r & w1 & r2 & w2 & H1 & H2 & _ & H).
  exists r, w1, r2, w2. split; [exact H1|]. split; [exact H2|].
  apply H. exact Hfit.
Defined.

(** C3 as stated fails: with limit 3, ["ab cd"] is normalised to itself
    and cut to ["ab "], which a second pass turns into ["ab"]. *)
Lemma sanitize_input_not_idempotent :
  Utils.sanitize_input (lit "ab cd") 3 Demo.empty_world
    = (Return (lit "ab "),
       snd (Utils.sanitize_input (lit "ab cd") 3 Demo.empty_world))
  /\ fst (Utils.sanitize_input (lit "ab ") 3
            (snd (Utils.sanitize_input (lit "ab cd") 3 Demo.empty_world)))
     = Return (lit "ab")
  /\ lit "ab" <> lit "ab ".
Proof.
  split; [vm_compute; reflexivity|].
  split; [vm_compute; reflexivity|].
  discriminate.
Qed.

(** ** hash_password followed by verify_password *)

(** For passwords of 8 to 200 characters the two wrappers add nothing to
    the hasher: [hash_password] returns what [ph.hash] returns, and
    [verify_password] on that text answers [True] exactly when [ph.verify]
    and [ph.check_needs_rehash] both return.  Which passwords the hasher
    accepts for a given hash is a property of Argon2, outside this code. *)
Lemma hash_then_verify ph salt p q h w :
  8 <= len p <= 200 -> 8 <= len q <= 200 ->
  ph_hash ph salt p = Return h -> h <> [] ->
  (exists w', Utils.hash_password ph salt p w = (Return h, w'))
  /\ (exists w',
        Utils.verify_password ph h q w
        = (Return match ph_verify ph h q, ph_check_needs_rehash ph h with
                  | Return _, Return _ => true
                  | _, _ => false
                  end, w')).
Proof.
  intros Hp Hq Hh Hne.
  assert (is_empty p = false) as Ep.
  { destruct p; [cbn in Hp; lia|reflexivity]. }
  assert (is_empty q = false) as Eq.
  { destruct q; [cbn in Hq; lia|reflexivity]. }
  split.
  - rewrite (hash_password_run ph salt p h w Ep (proj2 Hp) Hh). eauto.
  - unfold Utils.verify_password.
    apply is_empty_false in Hne. rewrite Hne, Eq. cbn [orb]. run.
    destruct (ph_verify ph h q) as [ok|e].
    + destruct (ph_check_needs_rehash ph h) as [[|]|e]; cbn; eauto.
      rewrite isinstance_Exception.
      destruct (isinstance e VerifyMismatchError); [cbn; eauto|].
      destruct (isinstance e VerificationError || isinstance e InvalidHash);
        cbn; eauto.
    + rewrite isinstance_Exception.
      destruct (isinstance e VerifyMismatchError); [cbn; eauto|].
      destruct (isinstance e VerificationError || isinstance e InvalidHash);
        cbn; eauto.
Qed.

(* ===================================================================== *)
(** * Further properties of the session manager                           *)
(* ===================================================================== *)

Lemma next_rowid_above {R} (id : R -> Z) rows :
  0 < Storage.next_rowid id rows
  /\ forall r, In r rows -> id r < Storage.next_rowid id rows.
Proof.
  unfold Storage.next_rowid.
  induction rows as [|a rows [IH0 IH]]; cbn [fold_right].
  - split; [lia|intros r []].
  - split; [lia|]. intros r [<-|Hr]; [lia|]. specialize (IH r Hr). lia.
Qed.

Lemma find_app_skip {A} (p : A -> bool) l l' :
  (forall x, In x l -> p x = false) -> find p (l ++ l') = find p l'.
Proof.
  induction l as [|a l IH]; intros H; [reflexivity|].
  cbn. rewrite (H a (or_introl eq_refl)). apply IH.
  intros x Hx. apply H. right. exact Hx.
Qed.

Lemma find_filter_keep {A} (p q : A -> bool) l :
  (forall x, In x l -> p x = true -> q x = true) ->
  find p (filter q l) = find p l.
Proof.
  induction l as [|a l IH]; intros H; [reflexivity|].
  assert (find p (filter q l) = find p l) as IH'
    by (apply IH; intros x Hx; apply H; right; exact Hx).
  cbn. destruct (q a) eqn:Eq; cbn.
  - rewrite IH'. reflexivity.
  - destruct (p a) eqn:Ep; [|exact IH'].
    rewrite (H a (or_introl eq_refl) Ep) in Eq. discriminate.
Qed.

Lemma filter_all {A} (q : A -> bool) l :
  (forall x, In x l -> q x = true) -> filter q l = l.
Proof.
  induction l as [|a l IH]; intros H; [reflexivity|].
  cbn. rewrite (H a (or_introl eq_refl)). f_equal. apply IH.
  intros x Hx. apply H. right. exact Hx.
Qed.

Lemma token_taken_false token w :
  Storage.token_taken token w = false ->
  forall r, In r (sessions w) -> str_eqb (s_token r) token = false.
Proof.
  unfold Storage.token_taken. intros H r Hr.
  destruct (str_eqb (s_token r) token) eqn:E; [|reflexivity].
  assert (existsb (fun r => str_eqb (s_token r) token) (sessions w) = true)
    as Ht by (apply existsb_exists; exists r; auto).
  congruence.
Qed.

Lemma create_frame tok now fault uid h w :
  exists o w',
    Session.create tok now fault uid h w = (Return o, w')
    /\ users w' = users w
    /\ (o = None -> sessions w' = sessions w).
Proof.
  unfold Session.create.
  destruct (uid <=? 0).
  { run. eexists. eexists. split; [reflexivity|]. cbn. auto. }
  destruct (generate_token_run tok 32 w) as (w1 & Hg & Hu1 & Hs1).
  change (Z.max 16 (Z.min 32 128)) with 32 in Hg.
  unfold try_except, bind at 1. rewrite Hg.
  unfold bind at 1, of_outcome at 1.
  destruct (Datetime.timedelta_hours h) as [d|e].
  2:{ rewrite isinstance_Exception. destruct (isinstance e Sqlite3Error);
      run; (eexists; eexists; split; [reflexivity|]; cbn; auto). }
  unfold bind at 1, of_outcome at 1.
  destruct (Datetime.add now d) as [x|e].
  2:{ rewrite isinstance_Exception. destruct (isinstance e Sqlite3Error);
      run; (eexists; eexists; split; [reflexivity|]; cbn; auto). }
  unfold Storage.insert_session, Session.init. run.
  destruct fault as [e|].
  { rewrite isinstance_Exception. destruct (isinstance e Sqlite3Error);
      (eexists; eexists; split; [reflexivity|]; cbn; auto). }
  destruct (Storage.token_taken (tok 32) w1); cbn;
    eexists; eexists; (split; [reflexivity|]); cbn;
    (split; [exact Hu1|]); [auto|discriminate].
Qed.

(** X1: [Session.create] never raises.  It returns a session exactly when the
    user id is positive, the driver works, the drawn token is not in the
    table yet and the expiry is a representable datetime; in every other
    case it returns [None] and the tables are as before. *)
Theorem create_outcome tok now fault uid h w :
  exists o w',
    Session.create tok now fault uid h w = (Return o, w')
    /\ users w' = users w
    /\ (o = None -> sessions w' = sessions w)
    /\ (o <> None <->
        0 < uid /\ fault = None
        /\ Storage.token_taken (tok 32) w = false
        /\ exists d e, Datetime.timedelta_hours h = Return d
                       /\ Datetime.add now d = Return e).
Proof.
  unfold Session.create.
  destruct (uid <=? 0) eqn:Eu.
  { run. eexists. eexists. split; [reflexivity|]. cbn.
    split; [reflexivity|]. split; [reflexivity|].
    split; [congruence|]. intros [H _]. apply Z.leb_le in Eu. lia. }
  apply Z.leb_gt in Eu.
  destruct (generate_token_run tok 32 w) as (w1 & Hg & Hu1 & Hs1).
  change (Z.max 16 (Z.min 32 128)) with 32 in Hg.
  unfold try_except, bind at 1. rewrite Hg.
  unfold bind at 1, of_outcome at 1.
  destruct (Datetime.timedelta_hours h) as [d|e] eqn:Ed.
  2:{ rewrite isinstance_Exception. destruct (isinstance e Sqlite3Error);
      run; (eexists; eexists; split; [reflexivity|]; cbn;
            split; [exact Hu1|]; split; [intros _; exact Hs1|];
            split; [congruence|];
            intros (_ & _ & _ & d & x & Hd & _); discriminate). }
  unfold bind at 1, of_outcome at 1.
  destruct (Datetime.add now d) as [x|e] eqn:Ex.
  2:{ rewrite isinstance_Exception. destruct (isinstance e Sqlite3Error);
      run; (eexists; eexists; split; [reflexivity|]; cbn;
            split; [exact Hu1|]; split; [intros _; exact Hs1|];
            split; [congruence|];
            intros (_ & _ & _ & d' & x & Hd & Hx);
            injection Hd as <-; rewrite Ex in Hx; discriminate). }
  unfold Storage.insert_session, Session.init. run.
  destruct fault as [e|].
  { rewrite isinstance_Exception. destruct (isinstance e Sqlite3Error);
      (eexists; eexists; split; [reflexivity|]; cbn;
       split; [exact Hu1|]; split; [intros _; exact Hs1|];
       split; [congruence|]; intros (_ & Hf & _); discriminate). }
  unfold Storage.token_taken at 1. rewrite Hs1.
  fold (Storage.token_taken (tok 32) w).
  destruct (Storage.token_taken (tok 32) w) eqn:Et; cbn.
  - eexists; eexists; split; [reflexivity|]; cbn.
    split; [exact Hu1|]. split; [intros _; exact Hs1|].
    split; [congruence|]. intros (_ & _ & Hf & _). discriminate.
  - eexists; eexists; split; [reflexivity|]; cbn.
    split; [exact Hu1|]. split; [discriminate|].
    split; [|discriminate]. intros _. repeat split; auto. eauto.
Qed.

Lemma create_outcome_witness :
  exists s w',
    Session.create Demo.token_urlsafe Demo.midnight None 1 24
      Demo.empty_world = (Return (Some s), w')
    /\ users w' = users Demo.empty_world.
Proof.
  destruct (create_outcome Demo.token_urlsafe Demo.midnight None 1 24
              Demo.empty_world) as (o & w' & Hc & Hu & _ & Hiff).
  destruct o as [s|].
  - exists s, w'. split; [exact Hc|exact Hu].
  - exfalso. apply (proj2 Hiff); [|reflexivity].
    split; [reflexivity|]. split; [reflexivity|].
    split; [reflexivity|].
    exists (24 * Datetime.us_per_hour),
           (Demo.midnight + 24 * Datetime.us_per_hour).
    split; reflexivity.
Defined.

Lemma created_session_is_row tok now fault uid h w s w' :
  Session.create tok now fault uid h w = (Return (Some s), w') ->
  s = session_of_row
        {| s_id := Storage.next_rowid s_id (sessions w); s_user_id := uid;
           s_token := tok 32; s_created_at := now;
           s_expires_at := now + h * Datetime.us_per_hour |}.
Proof.
  intros H. apply create_returns in H.
  destruct H as (_ & _ & Hu & Ht & Hc & He & _ & Hi & _).
  destruct s; cbn in *. unfold session_of_row; cbn. congruence.
Qed.

(** X2: A session that [Session.create] returned is found again under its
    token, as the same object, at every time before its expiry, and is
    absent from its expiry on (the token drawn must not be the empty
    string, which [find_by_token] refuses). *)
Theorem create_then_find tok now fault uid h w s w' :
  Session.create tok now fault uid h w = (Return (Some s), w') ->
  Session.token s <> [] ->
  forall now',
    Session.find_by_token now' None (Session.token s) w'
    = (Return (if now' <? Session.expires_at s then Some s else None), w').
Proof.
  intros Hc Hne now'.
  pose proof (created_session_is_row _ _ _ _ _ _ _ _ Hc) as Hrow.
  apply create_returns in Hc.
  destruct Hc as (_ & _ & _ & Ht & _ & He & Hfree & _ & Hs).
  rewrite find_by_token_working by (apply is_empty_false; exact Hne).
  rewrite Hs, find_app_skip.
  - cbn [find s_token s_expires_at]. rewrite Ht, str_eqb_refl, He.
    cbn [andb].
    destruct (now' <? now + h * Datetime.us_per_hour); cbn;
      [rewrite Hrow; reflexivity|reflexivity].
  - intros x Hx. rewrite Ht, (token_taken_false _ _ Hfree x Hx). reflexivity.
Qed.

Lemma create_then_find_witness :
  Session.create Demo.token_urlsafe Demo.midnight None 1 24 Demo.empty_world
    = (Return (Some Demo.session), Demo.with_session)
  /\ Session.token Demo.session <> []
  /\ Session.find_by_token (Demo.midnight + 5) None
       (Session.token Demo.session) Demo.with_session
     = (Return (Some Demo.session), Demo.with_session).
Proof.
  assert (Session.create Demo.token_urlsafe Demo.midnight None 1 24
            Demo.empty_world = (Return (Some Demo.session), Demo.with_session))
    as Hc by (vm_compute; reflexivity).
  assert (Session.token Demo.session <> []) as Hne by discriminate.
  split; [exact Hc|]. split; [exact Hne|].
  exact (create_then_find _ _ _ _ _ _ _ _ Hc Hne (Demo.midnight + 5)).
Defined.

(** X3: Revoking a session right after creating it gives back the sessions
    table as it was before the creation. *)
Theorem create_then_revoke tok now fault uid h w s w1 :
  Session.create tok now fault uid h w = (Return (Some s), w1) ->
  exists w2,
    Session.revoke None (w1, s) = (Return true, (w2, s))
    /\ sessions w2 = sessions w /\ users w2 = users w.
Proof.
  intros Hc.
  destruct (create_frame tok now fault uid h w) as (o & w' & Hc' & Hu & _).
  rewrite Hc in Hc'. injection Hc' as <- <-.
  apply create_returns in Hc.
  destruct Hc as (_ & _ & _ & _ & _ & _ & _ & Hid & Hs).
  destruct (next_rowid_above s_id (sessions w)) as [Hpos Hgt].
  assert (no_id (Session.id s) = false) as Hno.
  { rewrite Hid. unfold no_id. apply Z.eqb_neq. lia. }
  destruct (revoke_working w1 s Hno) as (w2 & Hr & Hu2 & Hs2).
  exists w2. split; [exact Hr|]. split; [|congruence].
  rewrite Hs2, Hid, Hs, filter_app. cbn [filter s_id].
  rewrite Z.eqb_refl. cbn [negb]. rewrite app_nil_r.
  apply filter_all. intros x Hx. apply negb_true_iff, Z.eqb_neq.
  specialize (Hgt x Hx). lia.
Qed.

Lemma create_then_revoke_witness :
  Session.create Demo.token_urlsafe Demo.midnight None 1 24 Demo.empty_world
    = (Return (Some Demo.session), Demo.with_session)
  /\ exists w2,
      Session.revoke None (Demo.with_session, Demo.session)
        = (Return true, (w2, Demo.session))
      /\ sessions w2 = sessions Demo.empty_world
      /\ users w2 = users Demo.empty_world.
Proof.
  assert (Session.create Demo.token_urlsafe Demo.midnight None 1 24
            Demo.empty_world = (Return (Some Demo.session), Demo.with_session))
    as Hc by (vm_compute; reflexivity).
  split; [exact Hc|].
  exact (create_then_revoke _ _ _ _ _ _ _ _ Hc).
Defined.

Lemma find_by_token_fault_result now e token w w' :
  fst (Session.find_by_token now (Some e) token w)
  = fst (Session.find_by_token now (Some e) token w').
Proof.
  unfold Session.find_by_token, Storage.select_live_session.
  destruct (is_empty token); [reflexivity|]. run.
  destruct (isinstance e Sqlite3Error); reflexivity.
Qed.

(** X4: A successful [revoke] deletes only rows with the id of the revoked
    session: the answer of [find_by_token] for a token that no row with
    that id carries is the same before and after. *)
Theorem revoke_spares_others fault w s w' s' :
  Session.revoke fault (w, s) = (Return true, (w', s')) ->
  forall now f t,
    (forall r, In r (sessions w) -> s_token r = t ->
               Session.id s <> Some (s_id r)) ->
    fst (Session.find_by_token now f t w')
    = fst (Session.find_by_token now f t w).
Proof.
  intros H now f t Hother.
  destruct (revoke_inv _ _ _ _ _ _ H) as [-> Hok].
  destruct (Hok eq_refl) as [Hid ->]. clear Hok.
  destruct (revoke_working w s Hid) as (w1 & H1 & _ & Hs1).
  rewrite H1 in H. injection H as <-.
  destruct f as [e|]; [apply find_by_token_fault_result|].
  destruct (is_empty t) eqn:Et.
  { unfold Session.find_by_token. rewrite Et. reflexivity. }
  rewrite !find_by_token_working by exact Et. cbn [fst]. do 2 f_equal.
  rewrite Hs1. apply find_filter_keep.
  intros x Hx Hp. apply andb_true_iff in Hp. destruct Hp as [Hp _].
  apply str_eqb_eq in Hp. specialize (Hother x Hx Hp).
  apply negb_true_iff, Z.eqb_neq. intros E. apply Hother.
  destruct (Session.id s) as [i|]; [|discriminate]. congruence.
Qed.

Lemma revoke_spares_others_witness :
  Session.revoke None (Sample.with_two_sessions, Demo.session)
    = (Return true,
       (fst (snd (Session.revoke None
                    (Sample.with_two_sessions, Demo.session))),
        Demo.session))
  /\ fst (Session.find_by_token (Demo.midnight + 9) None (lit "Zk81bM")
            (fst (snd (Session.revoke None
                         (Sample.with_two_sessions, Demo.session)))))
     = Return (Some Sample.second_session).
Proof.
  split; [vm_compute; reflexivity|].
  transitivity (fst (Session.find_by_token (Demo.midnight + 9) None
                       (lit "Zk81bM") Sample.with_two_sessions)).
  - apply (revoke_spares_others None Sample.with_two_sessions Demo.session
             (fst (snd (Session.revoke None
                          (Sample.with_two_sessions, Demo.session))))
             Demo.session eq_refl (Demo.midnight + 9) None (lit "Zk81bM")).
    intros r [<-|[<-|[]]] Ht; [discriminate Ht|discriminate].
  - vm_compute. reflexivity.
Defined.

Lemma find_unique {A} (p : A -> bool) l r :
  In r l -> p r = true ->
  (forall x, In x l -> p x = true -> x = r) ->
  find p l = Some r.
Proof.
  induction l as [|a l IH]; intros Hin Hp Hu; [contradiction|].
  cbn. destruct (p a) eqn:Ea.
  - f_equal. apply Hu; [left; reflexivity|exact Ea].
  - destruct Hin as [->|Hin]; [congruence|].
    apply IH; auto. intros x Hx. apply Hu. right. exact Hx.
Qed.

(** X5: Looking up the token of a stored row, while tokens are distinct and
    the driver works, returns the image of that very row if it has not
    expired, and nothing otherwise; the lookup agrees with [is_valid] on
    the object and writes nothing. *)
Theorem find_by_token_of_row now w r :
  tokens_unique w -> In r (sessions w) -> s_token r <> [] ->
  Session.find_by_token now None (s_token r) w
  = (Return (if Session.is_valid now (session_of_row r)
             then Some (session_of_row r) else None), w).
Proof.
  intros Hu Hr Hne.
  rewrite find_by_token_working by (apply is_empty_false; exact Hne).
  unfold Session.is_valid. cbn [Session.expires_at session_of_row].
  destruct (now <? s_expires_at r) eqn:E.
  - rewrite (find_unique _ _ r Hr); [reflexivity| |].
    + cbn. rewrite str_eqb_refl, E. reflexivity.
    + intros x Hx Hp. apply andb_true_iff in Hp. destruct Hp as [Hp _].
      apply str_eqb_eq in Hp. eapply NoDup_map_inj; eauto.
  - replace (find _ (sessions w)) with (@None session_row); [reflexivity|].
    symmetry. apply find_none_all. intros x Hx.
    destruct (str_eqb (s_token x) (s_token r)) eqn:Ex; [|reflexivity].
    apply str_eqb_eq in Ex.
    assert (x = r) by (eapply NoDup_map_inj; eauto). subst x.
    cbn. exact E.
Qed.

Lemma find_by_token_of_row_witness :
  tokens_unique Sample.with_two_sessions
  /\ Session.find_by_token (Demo.midnight + 9) None (lit "Zk81bM")
       Sample.with_two_sessions
     = (Return (Some Sample.second_session), Sample.with_two_sessions).
Proof.
  assert (tokens_unique Sample.with_two_sessions) as Hu.
  { unfold tokens_unique. vm_compute.
    constructor; [intros [H|[]]; discriminate H|].
    constructor; [intros []|constructor]. }
  split; [exact Hu|].
  refine (find_by_token_of_row (Demo.midnight + 9) Sample.with_two_sessions
            {| s_id := 2; s_user_id := 2; s_token := lit "Zk81bM";
               s_created_at := Demo.midnight + 1;
               s_expires_at := Demo.midnight + 1 + Datetime.us_per_day |}
            Hu _ _).
  - right. left. reflexivity.
  - discriminate.
Defined.

(** X6: [find_by_token] is a pure read: it leaves both tables as they are;
    what it returns carries the requested, non-empty token, is valid at
    the time of the call and is the image of a row; and it raises only an
    exception of the driver that is not an [sqlite3.Error]. *)
Theorem find_by_token_reads now fault token w o w' :
  Session.find_by_token now fault token w = (o, w') ->
  users w' = users w /\ sessions w' = sessions w
  /\ (forall s, o = Return (Some s) ->
        Session.token s = token /\ token <> []
        /\ Session.is_valid now s = true
        /\ exists r, In r (sessions w) /\ s = session_of_row r)
  /\ (forall e, o = Raise e ->
        fault = Some e /\ isinstance e Sqlite3Error = false).
Proof.
  intros H.
  destruct (is_empty token) eqn:Et.
  { unfold Session.find_by_token in H. rewrite Et in H.
    injection H as <- <-. repeat split; discriminate. }
  destruct fault as [e|].
  - unfold Session.find_by_token, Storage.select_live_session in H.
    rewrite Et in H. run.
    destruct (isinstance e Sqlite3Error) eqn:Ee; injection H as <- <-;
      cbn; (split; [reflexivity|]); (split; [reflexivity|]);
      (split; [intros s Hs; discriminate|]).
    + intros e' He'. discriminate.
    + intros e' He'. injection He' as <-. split; [reflexivity|exact Ee].
  - rewrite (find_by_token_working now token w Et) in H.
    injection H as <- <-. split; [reflexivity|]. split; [reflexivity|].
    split; [|intros e He; discriminate].
    intros s Hs.
    assert (fst (Session.find_by_token now None token w) = Return (Some s))
      as Hf by (rewrite (find_by_token_working now token w Et); exact Hs).
    apply find_by_token_some in Hf.
    destruct Hf as (r & Hin & -> & Htok & Hlt).
    split; [exact Htok|]. split; [apply is_empty_false; exact Et|].
    split; [apply Z.ltb_lt; exact Hlt|]. exists r. auto.
Qed.

Lemma find_by_token_reads_witness :
  Session.find_by_token (Demo.midnight + 9) None (lit "Zk81bM")
    Sample.with_two_sessions
  = (Return (Some Sample.second_session), Sample.with_two_sessions)
  /\ Session.token Sample.second_session = lit "Zk81bM"
  /\ Session.is_valid (Demo.midnight + 9) Sample.second_session = true.
Proof.
  assert (Session.find_by_token (Demo.midnight + 9) None (lit "Zk81bM")
            Sample.with_two_sessions
          = (Return (Some Sample.second_session), Sample.with_two_sessions))
    as Hf by (vm_compute; reflexivity).
  split; [exact Hf|].
  destruct (find_by_token_reads _ _ _ _ _ _ Hf) as (_ & _ & Hs & _).
  destruct (Hs _ eq_refl) as (Ht & _ & Hv & _).
  split; [exact Ht|exact Hv].
Defined.

Lemma NoDup_map_snoc {A B} (f : A -> B) l a :
  NoDup (map f l) -> ~ In (f a) (map f l) -> NoDup (map f (l ++ [a])).
Proof.
  intros Hnd Hnot. rewrite map_app. cbn.
  apply NoDup_app; [exact Hnd|constructor; [intros []|constructor]|].
  intros x Hx [<-|[]]. exact (Hnot Hx).
Qed.

Lemma Forall_filter {A} (P : A -> Prop) (q : A -> bool) l :
  Forall P l -> Forall P (filter q l).
Proof.
  intros H. apply Forall_forall. intros x Hx. apply filter_In in Hx.
  rewrite Forall_forall in H. apply H. tauto.
Qed.

(** X7: The constraints of the sessions table (distinct tokens, distinct
    positive ids) survive every call of [Session.create] and of [revoke],
    whatever it returns. *)
Theorem sessions_ok_kept w :
  sessions_ok w ->
  (forall tok now fault uid h o w',
      Session.create tok now fault uid h w = (o, w') -> sessions_ok w')
  /\ (forall fault s o w' s',
      Session.revoke fault (w, s) = (o, (w', s')) -> sessions_ok w').
Proof.
  intros (Ht & Hi & Hp). split.
  - intros tok now fault uid h o w' Hc.
    destruct (create_frame tok now fault uid h w)
      as (o' & w'' & Hc' & _ & Hnone).
    rewrite Hc in Hc'. injection Hc' as -> ->.
    destruct o' as [s|].
    + destruct (create_stored _ _ _ _ _ _ _ _ Hc) as [_ Hu].
      apply create_returns in Hc.
      destruct Hc as (_ & _ & _ & _ & _ & _ & _ & _ & Hs).
      destruct (next_rowid_above s_id (sessions w)) as [Hpos Hgt].
      split; [apply Hu; exact Ht|]. rewrite Hs. split.
      * apply NoDup_map_snoc; [exact Hi|]. cbn [s_id]. intros Hin.
        apply in_map_iff in Hin. destruct Hin as (x & Hx & Hin).
        specialize (Hgt x Hin). lia.
      * apply Forall_app. split; [exact Hp|]. constructor; [exact Hpos|constructor].
    + unfold sessions_ok. rewrite (Hnone eq_refl). auto.
  - intros fault s o w' s' Hr.
    split; [exact (revoke_tokens_unique _ _ _ _ _ _ Hr Ht)|].
    revert Hr. unfold Session.revoke, Storage.delete_session. run.
    destruct (no_id (Session.id s)); cbn.
    + intros H. inversion H; subst. auto.
    + destruct fault as [e|]; cbn.
      * destruct (isinstance e Sqlite3Error); cbn; intros H; inversion H;
          subst; cbn; auto.
      * intros H. inversion H; subst. cbn.
        split; [apply NoDup_map_filter; exact Hi|apply Forall_filter; exact Hp].
Qed.

Lemma sessions_ok_kept_witness :
  sessions_ok Demo.with_session /\ sessions_ok Sample.with_two_sessions.
Proof.
  assert (sessions_ok Demo.with_session) as H1.
  { unfold sessions_ok. vm_compute.
    repeat split; try (constructor; [intros []|constructor]).
    constructor; [reflexivity|constructor]. }
  split; [exact H1|].
  exact (proj1 (sessions_ok_kept Demo.with_session H1)
           Sample.other_token_urlsafe (Demo.midnight + 1) None 2 24 _ _
           eq_refl).
Defined.

(* ===================================================================== *)
(** * Further properties of the account manager                           *)
(* ===================================================================== *)

Lemma savable_checks u :
  savable u <->
  (is_empty (User.username u) || (50 <? len (User.username u))) = false
  /\ (is_empty (User.email u) || (100 <? len (User.email u))) = false
  /\ is_empty (User.password_hash u) = false.
Proof.
  unfold savable.
  rewrite !orb_false_iff, !is_empty_false, !Z.ltb_ge. tauto.
Qed.

Lemma with_id_same u : User.with_id (User.id u) u = u.
Proof. destruct u; reflexivity. Qed.

(** X8: The three ways [User.save] can end.  It returns [True] only when the
    fields pass the checks, the driver works and neither the username nor
    the email is taken: the row is appended under a fresh rowid, which
    becomes the id of the object.  It returns [False] when the fields are
    fine but the driver raised or a uniqueness constraint was hit, and
    raises [ValueError] when a field fails its check; in both cases
    neither the tables nor the object change.  Nothing else can happen. *)
Theorem save_outcome fault w u o w' u' :
  User.save fault (w, u) = (o, (w', u')) ->
  sessions w' = sessions w
  /\ ((o = Return true /\ savable u /\ fault = None
       /\ Storage.username_or_email_taken (User.username u) (User.email u) w
          = false
       /\ u' = User.with_id (Some (Storage.next_rowid u_id (users w))) u
       /\ users w' = users w
                     ++ [row_of_user (Storage.next_rowid u_id (users w)) u])
      \/ (o = Return false /\ savable u
          /\ (fault <> None
              \/ Storage.username_or_email_taken (User.username u)
                   (User.email u) w = true)
          /\ users w' = users w /\ u' = u)
      \/ (o = Raise ValueError /\ ~ savable u /\ w' = w /\ u' = u)).
Proof.
  unfold User.save. unfold bind at 1, self at 1. cbn [fst snd].
  pose proof (savable_checks u) as Hsv.
  destruct (is_empty (User.username u) || (50 <? len (User.username u))).
  { intros H. injection H as <- <- <-. split; [reflexivity|].
    right. right. repeat split. intros Hs. apply Hsv in Hs.
    destruct Hs; discriminate. }
  destruct (is_empty (User.email u) || (100 <? len (User.email u))).
  { intros H. injection H as <- <- <-. split; [reflexivity|].
    right. right. repeat split. intros Hs. apply Hsv in Hs.
    destruct Hs as (_ & ? & _); discriminate. }
  destruct (is_empty (User.password_hash u)).
  { intros H. injection H as <- <- <-. split; [reflexivity|].
    right. right. repeat split. intros Hs. apply Hsv in Hs.
    destruct Hs as (_ & _ & ?); discriminate. }
  assert (savable u) as Hok by (apply Hsv; auto). clear Hsv.
  unfold Storage.insert_user. run.
  destruct fault as [e|].
  - rewrite isinstance_Exception.
    destruct (isinstance e IntegrityError);
      [|destruct (isinstance e Sqlite3Error)];
      intros H; injection H as <- <- <-; cbn;
      (split; [reflexivity|]); right; left;
      (split; [reflexivity|]); (split; [exact Hok|]);
      (split; [left; discriminate|]); split; reflexivity.
  - destruct (Storage.username_or_email_taken (User.username u)
                (User.email u) w) eqn:Et; cbn.
    + intros H. injection H as <- <- <-. cbn. split; [reflexivity|].
      right. left. split; [reflexivity|]. split; [exact Hok|].
      split; [right; reflexivity|]. split; reflexivity.
    + intros H. injection H as <- <- <-. cbn. split; [reflexivity|].
      left. split; [reflexivity|]. split; [exact Hok|]. repeat split.
Qed.

Lemma save_outcome_witness :
  User.save None (Demo.empty_world, Demo.alice)
    = (Return true, (Demo.with_alice, Demo.alice_saved))
  /\ User.id Demo.alice_saved = Some 1
  /\ users Demo.with_alice = [row_of_user 1 Demo.alice].
Proof.
  assert (User.save None (Demo.empty_world, Demo.alice)
          = (Return true, (Demo.with_alice, Demo.alice_saved))) as H
    by (vm_compute; reflexivity).
  split; [exact H|].
  destruct (save_outcome _ _ _ _ _ _ H)
    as (_ & [(_ & _ & _ & _ & Hu & Hw)|[(Hf & _)|(Hf & _)]]);
    try discriminate Hf.
  split; [rewrite Hu; reflexivity|exact Hw].
Defined.

Lemma find_by_username_working name w :
  (is_empty name || (50 <? len name)) = false ->
  exists w',
    User.find_by_username None name w
    = (Return (option_map User.of_row
                 (find (fun r => str_eqb (u_username r) name) (users w))),
       w')
    /\ users w' = users w /\ sessions w' = sessions w.
Proof.
  intros Hn. unfold User.find_by_username, Storage.select_user_by_username.
  rewrite Hn. run.
  destruct (find _ (users w)); cbn; eexists; repeat split.
Qed.

Lemma find_by_id_working uid w :
  0 < uid ->
  User.find_by_id None uid w
  = (Return (option_map User.of_row
               (find (fun r => u_id r =? uid) (users w))), w).
Proof.
  intros Hu. unfold User.find_by_id, Storage.select_user_by_id.
  replace (uid <=? 0) with false by (symmetry; apply Z.leb_gt; exact Hu).
  run. destruct (find _ (users w)); reflexivity.
Qed.

Lemma not_taken w name mail :
  Storage.username_or_email_taken name mail w = false ->
  forall r, In r (users w) ->
    str_eqb (u_username r) name = false /\ str_eqb (u_email r) mail = false.
Proof.
  unfold Storage.username_or_email_taken. intros H r Hr.
  apply orb_false_iff.
  destruct (str_eqb (u_username r) name || str_eqb (u_email r) mail) eqn:E;
    [|reflexivity].
  assert (existsb (fun r => str_eqb (u_username r) name
                            || str_eqb (u_email r) mail) (users w) = true)
    as Ht by (apply existsb_exists; exists r; auto).
  congruence.
Qed.

Lemma save_succeeds w u :
  savable u ->
  Storage.username_or_email_taken (User.username u) (User.email u) w = false ->
  exists w1,
    User.save None (w, u)
    = (Return true,
       (w1, User.with_id (Some (Storage.next_rowid u_id (users w))) u))
    /\ users w1 = users w
                   ++ [row_of_user (Storage.next_rowid u_id (users w)) u].
Proof.
  intros Hok Hfree. apply savable_checks in Hok.
  destruct Hok as (H1 & H2 & H3).
  unfold User.save, Storage.insert_user. run.
  rewrite H1, H2, H3. cbn. rewrite Hfree. cbn.
  eexists. split; reflexivity.
Qed.

Lemma save_users fault w u o w' u' :
  User.save fault (w, u) = (o, (w', u')) ->
  users w' = users w
  \/ (Storage.username_or_email_taken (User.username u) (User.email u) w
      = false
      /\ users w' = users w
                    ++ [row_of_user (Storage.next_rowid u_id (users w)) u]).
Proof.
  unfold User.save. unfold bind at 1, self at 1. cbn [fst snd].
  destruct (is_empty (User.username u) || (50 <? len (User.username u))).
  { intros H. injection H as <- <- <-. auto. }
  destruct (is_empty (User.email u) || (100 <? len (User.email u))).
  { intros H. injection H as <- <- <-. auto. }
  destruct (is_empty (User.password_hash u)).
  { intros H. injection H as <- <- <-. auto. }
  unfold Storage.insert_user. run.
  destruct fault as [e|].
  - rewrite isinstance_Exception.
    destruct (isinstance e IntegrityError);
      [|destruct (isinstance e Sqlite3Error)];
      intros H; injection H as <- <- <-; cbn; auto.
  - destruct (Storage.username_or_email_taken (User.username u)
                (User.email u) w); cbn;
      intros H; injection H as <- <- <-; cbn; auto.
Qed.

(** X9: Saving an account whose fields pass the checks and whose username and
    email are free succeeds, and the account is then found again, with the
    same fields and its new positive id, both by its username and by that
    id. *)
Theorem save_then_find w u :
  savable u ->
  Storage.username_or_email_taken (User.username u) (User.email u) w = false ->
  exists w1 k,
    User.save None (w, u) = (Return true, (w1, User.with_id (Some k) u))
    /\ 0 < k
    /\ fst (User.find_by_username None (User.username u) w1)
       = Return (Some (User.with_id (Some k) u))
    /\ fst (User.find_by_id None k w1)
       = Return (Some (User.with_id (Some k) u)).
Proof.
  intros Hok Hfree.
  destruct (save_succeeds w u Hok Hfree) as (w1 & Hs & Hw).
  destruct (next_rowid_above u_id (users w)) as [Hpos Hgt].
  exists w1, (Storage.next_rowid u_id (users w)).
  split; [exact Hs|]. split; [exact Hpos|]. split.
  - destruct Hok as (Hn & Hl & _).
    destruct (find_by_username_working (User.username u) w1)
      as (w2 & -> & _).
    { apply orb_false_iff. split; [apply is_empty_false; exact Hn|].
      apply Z.ltb_ge. exact Hl. }
    cbn [fst]. rewrite Hw, find_app_skip.
    + cbn. rewrite str_eqb_refl. reflexivity.
    + intros x Hx. apply (not_taken _ _ _ Hfree x Hx).
  - rewrite find_by_id_working by exact Hpos.
    cbn [fst]. rewrite Hw, find_app_skip.
    + cbn [find row_of_user u_id]. rewrite Z.eqb_refl. reflexivity.
    + intros x Hx. apply Z.eqb_neq. specialize (Hgt x Hx). lia.
Qed.

Lemma save_then_find_witness :
  savable Sample.bob
  /\ Storage.username_or_email_taken (User.username Sample.bob)
       (User.email Sample.bob) Demo.with_alice = false
  /\ exists w1 k,
      User.save None (Demo.with_alice, Sample.bob)
        = (Return true, (w1, User.with_id (Some k) Sample.bob))
      /\ 0 < k
      /\ fst (User.find_by_username None (User.username Sample.bob) w1)
         = Return (Some (User.with_id (Some k) Sample.bob))
      /\ fst (User.find_by_id None k w1)
         = Return (Some (User.with_id (Some k) Sample.bob)).
Proof.
  assert (savable Sample.bob) as Hok.
  { unfold savable. cbn. repeat split; try discriminate. }
  assert (Storage.username_or_email_taken (User.username Sample.bob)
            (User.email Sample.bob) Demo.with_alice = false) as Hfree
    by (vm_compute; reflexivity).
  split; [exact Hok|]. split; [exact Hfree|].
  exact (save_then_find Demo.with_alice Sample.bob Hok Hfree).
Defined.

(** X10: [find_by_username] never raises, whatever the driver does, and writes
    to no table.  A username that is empty or longer than 50 characters is
    answered [None]; an account that is returned is the image of a row
    with the requested username; and while the driver works, a username of
    valid length is answered [None] exactly when no row carries it. *)
Theorem find_by_username_reads fault name w :
  exists o w',
    User.find_by_username fault name w = (Return o, w')
    /\ users w' = users w /\ sessions w' = sessions w
    /\ (name = [] \/ 50 < len name -> o = None)
    /\ (forall u, o = Some u ->
          User.username u = name
          /\ exists r, In r (users w) /\ u = User.of_row r)
    /\ (fault = None -> name <> [] -> len name <= 50 ->
        (o = None <-> forall r, In r (users w) -> u_username r <> name)).
Proof.
  destruct (is_empty name || (50 <? len name)) eqn:En.
  - unfold User.find_by_username. rewrite En. run.
    eexists. eexists. split; [reflexivity|]. cbn.
    split; [reflexivity|]. split; [reflexivity|].
    split; [reflexivity|]. split; [discriminate|].
    intros _ Hne Hl. exfalso.
    apply orb_true_iff in En. destruct En as [En|En].
    + apply is_empty_true in En. contradiction.
    + apply Z.ltb_lt in En. lia.
  - pose proof En as En'. apply orb_false_iff in En'.
    destruct En' as [Hne Hl]. apply is_empty_false in Hne.
    apply Z.ltb_ge in Hl.
    destruct fault as [e|].
    + unfold User.find_by_username, Storage.select_user_by_username.
      rewrite En. run. rewrite isinstance_Exception.
      destruct (isinstance e Sqlite3Error);
        (eexists; eexists; split; [reflexivity|]; cbn;
         split; [reflexivity|]; split; [reflexivity|];
         split; [reflexivity|]; split; [discriminate|];
         intros Hf; discriminate).
    + destruct (find_by_username_working name w En) as (w' & Hf & Hu & Hs).
      eexists. exists w'. split; [exact Hf|].
      split; [exact Hu|]. split; [exact Hs|].
      split; [intros [H|H]; [contradiction|lia]|].
      destruct (find (fun r => str_eqb (u_username r) name) (users w))
        as [r|] eqn:Efind; cbn.
      * apply find_some in Efind. destruct Efind as [Hin Hp].
        apply str_eqb_eq in Hp. split.
        -- intros u Hu'. injection Hu' as <-. split; [exact Hp|eauto].
        -- intros _ _ _. split; [discriminate|].
           intros H. exfalso. exact (H r Hin Hp).
      * split; [discriminate|]. intros _ _ _. split; [|reflexivity].
        intros _ r Hr Hp.
        pose proof (proj1 (find_none_all _ _) Efind r Hr) as Hq.
        cbn in Hq. rewrite Hp, str_eqb_refl in Hq. discriminate.
Qed.

Lemma find_by_username_reads_witness :
  (forall r, In r (users Demo.with_alice) -> u_username r <> lit "carol")
  /\ fst (User.find_by_username None (lit "carol") Demo.with_alice)
     = Return None.
Proof.
  assert (forall r, In r (users Demo.with_alice) ->
                    u_username r <> lit "carol") as Hno.
  { intros r [<-|[]]. discriminate. }
  split; [exact Hno|].
  destruct (find_by_username_reads None (lit "carol") Demo.with_alice)
    as (o & w' & -> & _ & _ & _ & _ & Hiff).
  cbn [fst]. f_equal.
  assert (lit "carol" <> []) as Hne by discriminate.
  assert (len (lit "carol") <= 50) as Hl by (vm_compute; discriminate).
  exact (proj2 (Hiff eq_refl Hne Hl) Hno).
Defined.

(** X11: [find_by_id] writes to no table and answers [None] to an id that is
    not positive.  An account it returns is the image of a row with the
    requested id.  Unlike [find_by_username] it has no handler for
    exceptions other than [sqlite3.Error]: such an exception of the driver
    is raised to the caller, and nothing else is. *)
Theorem find_by_id_reads fault uid w o w' :
  User.find_by_id fault uid w = (o, w') ->
  users w' = users w /\ sessions w' = sessions w
  /\ (uid <= 0 -> o = Return None)
  /\ (forall u, o = Return (Some u) ->
        User.id u = Some uid
        /\ exists r, In r (users w) /\ u = User.of_row r)
  /\ (forall e, o = Raise e <->
        0 < uid /\ fault = Some e /\ isinstance e Sqlite3Error = false).
Proof.
  destruct (uid <=? 0) eqn:Eu.
  - unfold User.find_by_id. rewrite Eu. run. intros H.
    injection H as <- <-. cbn. apply Z.leb_le in Eu.
    split; [reflexivity|]. split; [reflexivity|]. split; [reflexivity|].
    split; [discriminate|]. intros e. split; [discriminate|].
    intros [H _]. lia.
  - apply Z.leb_gt in Eu. destruct fault as [e|].
    + unfold User.find_by_id, Storage.select_user_by_id.
      replace (uid <=? 0) with false by (symmetry; apply Z.leb_gt; exact Eu).
      run. destruct (isinstance e Sqlite3Error) eqn:Ee; intros H;
        injection H as <- <-; cbn;
        (split; [reflexivity|]); (split; [reflexivity|]);
        (split; [intros; lia|]); (split; [discriminate|]).
      * intros e'. split; [discriminate|].
        intros (_ & He & Hi). injection He as <-. congruence.
      * intros e'. split.
        -- intros H. injection H as <-. auto.
        -- intros (_ & He & _). congruence.
    + rewrite find_by_id_working by exact Eu. intros H.
      injection H as <- <-.
      split; [reflexivity|]. split; [reflexivity|]. split; [intros; lia|].
      split.
      * intros u Hu.
        destruct (find (fun r => u_id r =? uid) (users w)) as [r|] eqn:Ef;
          [|discriminate].
        cbn in Hu. injection Hu as <-.
        apply find_some in Ef. destruct Ef as [Hin Hp].
        apply Z.eqb_eq in Hp. split; [cbn; f_equal; exact Hp|eauto].
      * intros e. split; [discriminate|]. intros (_ & H & _). discriminate.
Qed.

Lemma find_by_id_reads_witness :
  User.find_by_id None 1 Demo.with_alice
    = (Return (Some Demo.alice_saved), Demo.with_alice)
  /\ User.id Demo.alice_saved = Some 1
  /\ fst (User.find_by_id (Some Exception) 1 Demo.with_alice)
     = Raise Exception.
Proof.
  assert (User.find_by_id None 1 Demo.with_alice
          = (Return (Some Demo.alice_saved), Demo.with_alice)) as H
    by (vm_compute; reflexivity).
  split; [exact H|].
  destruct (find_by_id_reads _ _ _ _ _ H) as (_ & _ & _ & Hs & _).
  split; [exact (proj1 (Hs _ eq_refl))|].
  destruct (User.find_by_id (Some Exception) 1 Demo.with_alice)
    as [o w'] eqn:Hr.
  destruct (find_by_id_reads _ _ _ _ _ Hr) as (_ & _ & _ & _ & He).
  cbn [fst]. apply He. repeat split.
Defined.

(** X12: [set_password] touches no table and no field of the account other
    than [password_hash].  It ends in one of three ways: the password has
    8 to 200 characters and the hasher returned, and the object carries
    the hasher's text; the length is out of bounds, [ValueError] is raised
    and nothing at all changed; or the hasher raised, its exception is
    passed on and the object is unchanged. *)
Theorem set_password_outcome ph salt p w u o w' u' :
  User.set_password ph salt p (w, u) = (o, (w', u')) ->
  users w' = users w /\ sessions w' = sessions w
  /\ User.id u' = User.id u /\ User.username u' = User.username u
  /\ User.email u' = User.email u /\ User.created_at u' = User.created_at u
  /\ ((o = Return tt /\ 8 <= len p <= 200
       /\ ph_hash ph salt p = Return (User.password_hash u'))
      \/ (o = Raise ValueError /\ (len p < 8 \/ 200 < len p)
          /\ w' = w /\ u' = u)
      \/ (exists e, o = Raise e /\ 8 <= len p <= 200
                    /\ ph_hash ph salt p = Raise e /\ u' = u)).
Proof.
  unfold User.set_password.
  destruct (is_empty p || (len p <? 8)) eqn:E1.
  { intros H. injection H as <- <- <-. repeat split.
    right. left. repeat split. left.
    apply orb_true_iff in E1. destruct E1 as [E|E].
    - apply is_empty_true in E. subst p. cbn. lia.
    - apply Z.ltb_lt in E. exact E. }
  apply orb_false_iff in E1. destruct E1 as [Ee E8]. apply Z.ltb_ge in E8.
  destruct (200 <? len p) eqn:E2.
  { intros H. injection H as <- <- <-. repeat split.
    right. left. repeat split. right. apply Z.ltb_lt in E2. exact E2. }
  apply Z.ltb_ge in E2.
  unfold Utils.hash_password. rewrite Ee.
  replace (200 <? len p) with false by (symmetry; apply Z.ltb_ge; exact E2).
  run. destruct (ph_hash ph salt p) as [h|e] eqn:Eh; cbn.
  - intros H. injection H as <- <- <-. cbn. repeat split.
    left. repeat split; auto.
  - rewrite isinstance_Exception. cbn.
    intros H. injection H as <- <- <-. cbn. repeat split.
    right. right. exists e. repeat split; auto.
Qed.

Lemma set_password_outcome_witness :
  User.set_password Demo.ph (lit "s2") (lit "NewSecret99")
    (Demo.with_alice, Demo.alice_saved)
  = (Return tt,
     (fst (snd (User.set_password Demo.ph (lit "s2") (lit "NewSecret99")
                  (Demo.with_alice, Demo.alice_saved))),
      User.with_password_hash (lit "$s2$NewSecret99") Demo.alice_saved))
  /\ User.username
       (User.with_password_hash (lit "$s2$NewSecret99") Demo.alice_saved)
     = lit "alice".
Proof.
  assert (User.set_password Demo.ph (lit "s2") (lit "NewSecret99")
            (Demo.with_alice, Demo.alice_saved)
          = (Return tt,
             (fst (snd (User.set_password Demo.ph (lit "s2")
                          (lit "NewSecret99")
                          (Demo.with_alice, Demo.alice_saved))),
              User.with_password_hash (lit "$s2$NewSecret99")
                Demo.alice_saved))) as H by (vm_compute; reflexivity).
  split; [exact H|].
  destruct (set_password_outcome _ _ _ _ _ _ _ _ H)
    as (_ & _ & _ & Hn & _).
  rewrite Hn. reflexivity.
Defined.

Lemma rehashed_keys h i l :
  map u_id (map (rehashed h i) l) = map u_id l
  /\ map u_username (map (rehashed h i) l) = map u_username l
  /\ map u_email (map (rehashed h i) l) = map u_email l.
Proof.
  rewrite !map_map. repeat split; apply map_ext; intros r;
    unfold rehashed; destruct (u_id r =? i); reflexivity.
Qed.

Lemma update_password_working ph salt pw h w u i :
  User.id u = Some i -> i <> 0 -> 8 <= len pw <= 200 ->
  ph_hash ph salt pw = Return h ->
  exists w',
    User.update_password ph salt None pw (w, u)
      = (Return true, (w', User.with_password_hash h u))
    /\ sessions w' = sessions w
    /\ users w' = map (rehashed h i) (users w).
Proof.
  intros Hi Hnz Hl Hh.
  destruct (set_password_run ph salt pw h w u Hl Hh) as (w1 & Hs & Hu1 & Hs1).
  unfold User.update_password.
  unfold bind at 1, self at 1. cbn [fst snd].
  assert (no_id (User.id u) = false) as Hid
    by (rewrite Hi; apply Z.eqb_neq; exact Hnz).
  rewrite Hid. unfold try_except, bind at 1. rewrite Hs.
  unfold Storage.update_user_password. run. cbn. rewrite Hi.
  eexists. split; [reflexivity|]. cbn. split; [exact Hs1|].
  rewrite Hu1. reflexivity.
Qed.

(** X13: A successful [update_password]: with an id on the object, a password
    of 8 to 200 characters, a hasher that returns [h] and a working
    driver, the call returns [True] and the object carries [h]; in the
    table every row with that id now holds [h] and every other row is as
    before.  If no row has the id (the account was deleted meanwhile) the
    call still returns [True] and the table is unchanged.  If a row has
    it, [find_by_id] then returns an account whose hash is [h]. *)
Theorem update_password_success ph salt pw h w u i :
  User.id u = Some i -> i <> 0 -> 8 <= len pw <= 200 ->
  ph_hash ph salt pw = Return h ->
  exists w',
    User.update_password ph salt None pw (w, u)
      = (Return true, (w', User.with_password_hash h u))
    /\ sessions w' = sessions w
    /\ (forall r, In r (users w') -> u_id r = i -> u_password_hash r = h)
    /\ (forall r, u_id r <> i -> (In r (users w') <-> In r (users w)))
    /\ ((forall r, In r (users w) -> u_id r <> i) -> users w' = users w)
    /\ (0 < i -> (exists r, In r (users w) /\ u_id r = i) ->
        exists u2,
          fst (User.find_by_id None i w') = Return (Some u2)
          /\ User.id u2 = Some i /\ User.password_hash u2 = h).
Proof.
  intros Hi Hnz Hl Hh.
  destruct (update_password_working ph salt pw h w u i Hi Hnz Hl Hh)
    as (w' & Hup & Hs & Hu).
  exists w'. split; [exact Hup|]. split; [exact Hs|].
  assert (forall r, In r (users w') -> u_id r = i -> u_password_hash r = h)
    as Hall.
  { intros r Hr Hid. rewrite Hu in Hr. apply in_map_iff in Hr.
    destruct Hr as (r0 & <- & _). unfold rehashed in *.
    destruct (u_id r0 =? i) eqn:E; [reflexivity|].
    apply Z.eqb_neq in E. contradiction. }
  split; [exact Hall|]. split; [|split].
  - intros r Hne. rewrite Hu, in_map_iff. split.
    + intros (r0 & <- & Hin). unfold rehashed in *.
      destruct (u_id r0 =? i) eqn:E; [|exact Hin].
      apply Z.eqb_eq in E. cbn in Hne. contradiction.
    + intros Hin. exists r. split; [|exact Hin].
      unfold rehashed. apply Z.eqb_neq in Hne. rewrite Hne. reflexivity.
  - intros Hno. rewrite Hu. rewrite <- (map_id (users w)) at 2.
    apply map_ext_in. intros r Hr. unfold rehashed.
    specialize (Hno r Hr). apply Z.eqb_neq in Hno. rewrite Hno. reflexivity.
  - intros Hpos (r & Hr & Hid).
    rewrite find_by_id_working by exact Hpos. cbn [fst].
    destruct (find (fun r => u_id r =? i) (users w')) as [r'|] eqn:Ef.
    + apply find_some in Ef. destruct Ef as [Hin Hp]. apply Z.eqb_eq in Hp.
      exists (User.of_row r'). split; [reflexivity|].
      cbn. split; [f_equal; exact Hp|exact (Hall r' Hin Hp)].
    + exfalso.
      assert (In (rehashed h i r) (users w')) as Hin
        by (rewrite Hu; apply in_map; exact Hr).
      pose proof (proj1 (find_none_all _ _) Ef _ Hin) as Hq. cbn in Hq.
      unfold rehashed in Hq. apply Z.eqb_eq in Hid. rewrite Hid in Hq.
      cbn in Hq. congruence.
Qed.

Lemma update_password_success_witness :
  User.id Demo.alice_saved = Some 1
  /\ 8 <= len (lit "NewSecret99") <= 200
  /\ ph_hash Demo.ph (lit "s2") (lit "NewSecret99")
     = Return (lit "$s2$NewSecret99")
  /\ exists w' u2,
      User.update_password Demo.ph (lit "s2") None (lit "NewSecret99")
        (Demo.with_alice, Demo.alice_saved)
      = (Return true,
         (w', User.with_password_hash (lit "$s2$NewSecret99")
                Demo.alice_saved))
      /\ fst (User.find_by_id None 1 w') = Return (Some u2)
      /\ User.password_hash u2 = lit "$s2$NewSecret99".
Proof.
  assert (8 <= len (lit "NewSecret99") <= 200) as Hl
    by (vm_compute; split; discriminate).
  split; [reflexivity|]. split; [exact Hl|]. split; [reflexivity|].
  destruct (update_password_success Demo.ph (lit "s2") (lit "NewSecret99")
              (lit "$s2$NewSecret99") Demo.with_alice Demo.alice_saved 1
              eq_refl ltac:(discriminate) Hl eq_refl)
    as (w' & Hup & _ & _ & _ & _ & Hfind).
  destruct Hfind as (u2 & Hf & _ & Hh).
  - reflexivity.
  - eexists. split; [left; reflexivity|reflexivity].
  - exists w', u2. auto.
Defined.

Lemma set_password_frame ph salt p w u o w' u' :
  User.set_password ph salt p (w, u) = (o, (w', u')) ->
  users w' = users w /\ sessions w' = sessions w.
Proof.
  unfold User.set_password.
  destruct (is_empty p || (len p <? 8)).
  { intros H. injection H as <- <- <-. auto. }
  destruct (200 <? len p).
  { intros H. injection H as <- <- <-. auto. }
  unfold bind at 1, on_fst at 1. cbn [fst snd].
  destruct (Utils.hash_password ph salt p w) as [o1 w1] eqn:Hh.
  assert (users w1 = users w /\ sessions w1 = sessions w) as [Hu Hs].
  { revert Hh. unfold Utils.hash_password.
    destruct (is_empty p); [intros H; injection H as <- <-; auto|].
    destruct (200 <? len p); [intros H; injection H as <- <-; auto|].
    run. destruct (ph_hash ph salt p) as [x|e]; cbn;
      [|rewrite isinstance_Exception; cbn];
      intros H; injection H as <- <-; cbn; auto. }
  destruct o1 as [x|e]; run; intros H; injection H as <- <- <-; cbn; auto.
Qed.

Lemma update_password_tables ph salt fault pw w u o w' u' :
  User.update_password ph salt fault pw (w, u) = (o, (w', u')) ->
  sessions w' = sessions w
  /\ (users w' = users w
      \/ exists h i, users w' = map (rehashed h i) (users w)).
Proof.
  unfold User.update_password.
  unfold bind at 1, self at 1. cbn [fst snd].
  destruct (no_id (User.id u)).
  { run. intros H. injection H as <- <- <-. cbn. auto. }
  destruct (User.set_password ph salt pw (w, u)) as [o1 [w1 u1]] eqn:Hs.
  destruct (set_password_frame _ _ _ _ _ _ _ _ Hs) as (Hu1 & Hs1).
  unfold try_except, bind at 1. rewrite Hs.
  destruct o1 as [[]|e].
  - unfold Storage.update_user_password. run.
    destruct fault as [e|].
    + rewrite isinstance_Exception.
      destruct (isinstance e ValueError);
        [|destruct (isinstance e Sqlite3Error)];
        intros H; injection H as <- <- <-; cbn; auto.
    + cbn. intros H. injection H as <- <- <-. cbn.
      split; [exact Hs1|]. right. rewrite Hu1.
      exists (User.password_hash u1),
             (match User.id u1 with Some i0 => i0 | None => 0 end).
      reflexivity.
  - rewrite isinstance_Exception. run.
    destruct (isinstance e ValueError);
      [|destruct (isinstance e Sqlite3Error)];
      intros H; injection H as <- <- <-; cbn; auto.
Qed.

(** X14: The constraints of the users table (distinct usernames, distinct
    emails, distinct positive ids) survive every call of [User.save] and
    of [User.update_password], whatever it returns or raises. *)
Theorem users_ok_kept w :
  users_ok w ->
  (forall fault u o w' u',
      User.save fault (w, u) = (o, (w', u')) -> users_ok w')
  /\ (forall ph salt fault pw u o w' u',
      User.update_password ph salt fault pw (w, u) = (o, (w', u')) ->
      users_ok w').
Proof.
  intros (Hn & He & Hi & Hp). split.
  - intros fault u o w' u' Hs.
    destruct (save_users _ _ _ _ _ _ Hs) as [Hw|(Hfree & Hw)];
      [unfold users_ok; rewrite Hw; auto|].
    destruct (next_rowid_above u_id (users w)) as [Hpos Hgt].
    unfold users_ok. rewrite Hw. repeat split.
    + apply NoDup_map_snoc; [exact Hn|]. cbn [row_of_user u_username].
      intros Hin. apply in_map_iff in Hin. destruct Hin as (x & Hx & Hin).
      destruct (not_taken _ _ _ Hfree x Hin) as [H _].
      rewrite Hx, str_eqb_refl in H. discriminate.
    + apply NoDup_map_snoc; [exact He|]. cbn [row_of_user u_email].
      intros Hin. apply in_map_iff in Hin. destruct Hin as (x & Hx & Hin).
      destruct (not_taken _ _ _ Hfree x Hin) as [_ H].
      rewrite Hx, str_eqb_refl in H. discriminate.
    + apply NoDup_map_snoc; [exact Hi|]. cbn [row_of_user u_id].
      intros Hin. apply in_map_iff in Hin. destruct Hin as (x & Hx & Hin).
      specialize (Hgt x Hin). lia.
    + apply Forall_app. split; [exact Hp|].
      constructor; [exact Hpos|constructor].
  - intros ph salt fault pw u o w' u' Hup.
    destruct (update_password_tables _ _ _ _ _ _ _ _ _ Hup)
      as (_ & [Hw|(h & i & Hw)]); unfold users_ok; rewrite Hw; auto.
    destruct (rehashed_keys h i (users w)) as (-> & -> & ->).
    repeat split; auto.
    apply Forall_forall. intros r Hr. apply in_map_iff in Hr.
    destruct Hr as (r0 & <- & Hin). rewrite Forall_forall in Hp.
    specialize (Hp r0 Hin). unfold rehashed.
    destruct (u_id r0 =? i); exact Hp.
Qed.

Lemma users_ok_kept_witness :
  users_ok Demo.empty_world /\ users_ok Demo.with_alice.
Proof.
  assert (users_ok Demo.empty_world) as H0.
  { unfold users_ok. cbn. repeat split; constructor. }
  split; [exact H0|].
  exact (proj1 (users_ok_kept Demo.empty_world H0) None Demo.alice
           (Return true) Demo.with_alice Demo.alice_saved eq_refl).
Defined.

(* ===================================================================== *)
(** * Further properties of the utilities                                 *)
(* ===================================================================== *)

(** X15: [generate_token] never raises and writes to no table; the number of
    bytes it asks of the random source is the requested length brought
    into the range 16..128: unchanged inside the range, 16 below it, 128
    above it. *)
Theorem generate_token_clamps tok n w :
  exists k w',
    Utils.generate_token tok n w = (Return (tok k), w')
    /\ 16 <= k <= 128
    /\ (16 <= n <= 128 -> k = n)
    /\ (n < 16 -> k = 16)
    /\ (128 < n -> k = 128)
    /\ users w' = users w /\ sessions w' = sessions w.
Proof.
  destruct (generate_token_run tok n w) as (w' & H & Hu & Hs).
  exists (Z.max 16 (Z.min n 128)), w'.
  split; [exact H|]. repeat split; auto; lia.
Qed.

Lemma generate_token_clamps_witness :
  exists w', Utils.generate_token Demo.token_urlsafe 4 Demo.empty_world
             = (Return (Demo.token_urlsafe 16), w').
Proof.
  destruct (generate_token_clamps Demo.token_urlsafe 4 Demo.empty_world)
    as (k & w' & H & _ & _ & Hlow & _).
  exists w'. rewrite H, (Hlow ltac:(lia)). reflexivity.
Defined.

(** X16: [hash_password] accepts every password of 1 to 200 characters (the
    minimum of 8 is not checked here) and then returns, or raises, exactly
    what the hasher does; on an empty or longer password it raises
    [ValueError] without calling the hasher or logging.  It writes to no
    table. *)
Theorem hash_password_outcome ph salt p w o w' :
  Utils.hash_password ph salt p w = (o, w') ->
  users w' = users w /\ sessions w' = sessions w
  /\ (((p = [] \/ 200 < len p) /\ o = Raise ValueError /\ w' = w)
      \/ (p <> [] /\ len p <= 200 /\ o = ph_hash ph salt p)).
Proof.
  unfold Utils.hash_password.
  destruct (is_empty p) eqn:Ee.
  { intros H. injection H as <- <-. apply is_empty_true in Ee. auto 6. }
  apply is_empty_false in Ee.
  destruct (200 <? len p) eqn:El.
  { intros H. injection H as <- <-. apply Z.ltb_lt in El. auto 6. }
  apply Z.ltb_ge in El. run.
  destruct (ph_hash ph salt p) as [h|e]; cbn.
  - intros H. injection H as <- <-. cbn. auto 6.
  - rewrite isinstance_Exception. cbn.
    intros H. injection H as <- <-. cbn. auto 6.
Qed.

Lemma hash_password_outcome_witness :
  fst (Utils.hash_password Demo.ph (lit "s") (lit "a") Demo.empty_world)
  = Return (lit "$s$a").
Proof.
  destruct (Utils.hash_password Demo.ph (lit "s") (lit "a") Demo.empty_world)
    as [o w'] eqn:H.
  destruct (hash_password_outcome _ _ _ _ _ _ H)
    as (_ & _ & [([Hp|Hp] & _)|(_ & _ & ->)]).
  - discriminate Hp.
  - vm_compute in Hp. discriminate Hp.
  - reflexivity.
Defined.

Lemma count_occ_none (f : Z -> bool) c l :
  f c = false -> forallb f l = true -> count_occ Z.eq_dec l c = 0%nat.
Proof.
  intros Hc. induction l as [|a l IH]; intros H; [reflexivity|].
  cbn in H. apply andb_true_iff in H. destruct H as [Ha H].
  cbn. destruct (Z.eq_dec a c) as [->|_]; [congruence|]. apply IH. exact H.
Qed.

Lemma validate_email_true s :
  Utils.validate_email s = true ->
  len s <= 254
  /\ (email_pattern s \/ exists s', s = s' ++ [10] /\ email_pattern s').
Proof.
  unfold Utils.validate_email.
  destruct (is_empty s); [discriminate|]. cbn [orb].
  destruct (254 <? len s) eqn:El; [discriminate|].
  apply Z.ltb_ge in El. intros H. apply email_regex_matches in H. auto.
Qed.

Lemma pattern_one_at s :
  email_pattern s ->
  count_occ Z.eq_dec s 64 = 1%nat /\ (6 <= List.length s)%nat.
Proof.
  intros (l & d & t & -> & Hln & Hla & Hdn & Hda & Htl & Hta).
  split.
  - rewrite !count_occ_app.
    rewrite (count_occ_none is_local_char 64 l eq_refl Hla).
    rewrite (count_occ_none is_domain_char 64 d eq_refl Hda).
    rewrite (count_occ_none is_letter 64 t eq_refl Hta).
    reflexivity.
  - rewrite !length_app. cbn.
    apply nonempty_length in Hln. apply nonempty_length in Hdn. lia.
Qed.

(** X17: Every string [validate_email] accepts contains exactly one ["@"] and
    has between 6 and 254 characters. *)
Theorem validate_email_shape s :
  Utils.validate_email s = true ->
  count_occ Z.eq_dec s 64 = 1%nat /\ 6 <= len s <= 254.
Proof.
  intros H. apply validate_email_true in H. destruct H as [Hl H].
  destruct H as [H|(s' & -> & H)]; destruct (pattern_one_at _ H) as [Hc Hn].
  - split; [exact Hc|]. unfold len in *. lia.
  - split.
    + rewrite count_occ_app, Hc. reflexivity.
    + unfold len in *. rewrite length_app in *. cbn in *. lia.
Qed.

Lemma validate_email_shape_witness :
  Utils.validate_email (lit "a@b.cd") = true
  /\ count_occ Z.eq_dec (lit "a@b.cd") 64 = 1%nat
  /\ 6 <= len (lit "a@b.cd") <= 254.
Proof.
  assert (Utils.validate_email (lit "a@b.cd") = true) as H
    by (vm_compute; reflexivity).
  split; [exact H|]. exact (validate_email_shape _ H).
Defined.

(** X18: [validate_email] accepts exactly the strings of at most 254
    characters that are an address [local@domain.tld] of the pattern, or
    such an address followed by one newline. *)
Theorem validate_email_exact s :
  Utils.validate_email s = true <->
  len s <= 254
  /\ (email_pattern s \/ exists s', s = s' ++ [10] /\ email_pattern s').
Proof.
  split; [apply validate_email_true|].
  intros [Hl H]. unfold Utils.validate_email.
  assert (is_empty s = false) as He.
  { destruct s; [|reflexivity]. exfalso.
    destruct H as [H|(s' & Hs & _)].
    - apply pattern_one_at in H. destruct H as [_ H]. cbn in H. lia.
    - destruct s'; discriminate. }
  rewrite He. cbn [orb].
  replace (254 <? len s) with false by (symmetry; apply Z.ltb_ge; exact Hl).
  apply email_regex_matches. exact H.
Qed.

(** X19: Whatever the secure validator accepts contains an ["@"], so the legacy
    validator accepts it too; the legacy one accepts more, for example the
    bare ["@"]. *)
Theorem legacy_validate_email_weaker s :
  (Utils.validate_email s = true -> Legacy.validate_email s = true)
  /\ Legacy.validate_email [64] = true
  /\ Utils.validate_email [64] = false.
Proof.
  split; [|split; reflexivity].
  intros H. apply validate_email_true in H. destruct H as [_ H].
  unfold Legacy.validate_email, char_in. apply existsb_exists.
  exists 64. split; [|reflexivity].
  apply (count_occ_In Z.eq_dec).
  destruct H as [H|(s' & -> & H)]; destruct (pattern_one_at _ H) as [Hc _].
  - lia.
  - rewrite count_occ_app, Hc. cbn. lia.
Qed.

Lemma legacy_validate_email_weaker_witness :
  Utils.validate_email (lit "user@example.com") = true
  /\ Legacy.validate_email (lit "user@example.com") = true.
Proof.
  assert (Utils.validate_email (lit "user@example.com") = true) as H
    by (vm_compute; reflexivity).
  split; [exact H|].
  exact (proj1 (legacy_validate_email_weaker _) H).
Defined.

Lemma filter_filter {A} (p q : A -> bool) l :
  filter p (filter q l) = filter (fun x => q x && p x) l.
Proof.
  induction l as [|a l IH]; [reflexivity|].
  cbn. destruct (q a); cbn; [destruct (p a)|]; rewrite ?IH; reflexivity.
Qed.

(** X20: The legacy [sanitize_input] removes the two quote characters and
    nothing else: every other character, control characters and SQL
    punctuation included, stays in place.  It is idempotent. *)
Theorem legacy_sanitize_input x :
  Legacy.sanitize_input x
  = filter (fun c => negb (c =? 39) && negb (c =? 34)) x
  /\ (forall c, In c (Legacy.sanitize_input x) <->
                In c x /\ c <> 39 /\ c <> 34)
  /\ Legacy.sanitize_input (Legacy.sanitize_input x) = Legacy.sanitize_input x.
Proof.
  assert (forall y, Legacy.sanitize_input y
                    = filter (fun c => negb (c =? 39) && negb (c =? 34)) y)
    as Heq.
  { intros y. unfold Legacy.sanitize_input, Legacy.dangerous_chars,
      remove_char. cbn. apply filter_filter. }
  split; [apply Heq|]. split.
  - intros c. rewrite Heq, filter_In, andb_true_iff, !negb_true_iff,
      !Z.eqb_neq. tauto.
  - rewrite !Heq, filter_filter. apply filter_ext. intros c.
    destruct (negb (c =? 39) && negb (c =? 34)); reflexivity.
Qed.

Lemma join_split_length s : forall cur,
  (List.length (join [32%Z] (split_from cur s))
   <= List.length cur + List.length s)%nat.
Proof.
  induction s as [|c s IH]; intros cur.
  - cbn [split_from]. destruct cur; cbn [join List.length]; [lia|].
    rewrite length_rev. cbn [List.length]. lia.
  - cbn [split_from]. destruct (isspace c).
    + destruct cur as [|c0 cur].
      * specialize (IH []). cbn [List.length] in *. lia.
      * specialize (IH []). cbn [List.length] in IH.
        destruct (split_from [] s) as [|w ws].
        -- cbn [join]. rewrite length_rev. cbn [List.length]. lia.
        -- change (join [32] (rev (c0 :: cur) :: w :: ws))
             with (rev (c0 :: cur) ++ [32] ++ join [32] (w :: ws)).
           rewrite !length_app, length_rev. cbn [List.length] in *. lia.
    + specialize (IH (c :: cur)). cbn [List.length] in *. lia.
Qed.

Lemma normalized_length x : (List.length (normalized x) <= List.length x)%nat.
Proof.
  unfold normalized, split, remove_char.
  pose proof (join_split_length
                (filter Utils.keep_char
                   (filter (fun c => negb (c =? 0)) x)) []) as H.
  pose proof (filter_length_le Utils.keep_char
                (filter (fun c => negb (c =? 0)) x)) as H1.
  pose proof (filter_length_le (fun c => negb (c =? 0)) x) as H2.
  cbn [List.length] in H. lia.
Qed.

Lemma sanitized_length x m : (List.length (sanitized x m) <= List.length x)%nat.
Proof.
  unfold sanitized. destruct (is_empty x); [cbn; lia|].
  pose proof (normalized_length x) as Hn.
  destruct (m <? len (normalized x)); [|exact Hn].
  pose proof (slice_to_length (normalized x) m). lia.
Qed.

Lemma word_char_plain c :
  word_char c = true -> is_control c = false /\ isspace c = false.
Proof.
  unfold word_char. intros H.
  apply andb_true_iff in H. destruct H as [H _].
  apply andb_true_iff in H. destruct H as [Hs Hk].
  apply negb_true_iff in Hs. split; [|exact Hs].
  unfold Utils.keep_char in Hk. fold (is_control c) in Hk.
  destruct (is_control c); [|reflexivity].
  cbn [negb] in Hk. rewrite orb_false_r in Hk.
  unfold char_in in Hk. apply existsb_exists in Hk.
  destruct Hk as (y & Hy & Heq). apply Z.eqb_eq in Heq. subst y.
  destruct Hy as [<-|[<-|[<-|[]]]]; discriminate Hs.
Qed.

Lemma tidy_chars s : forall b,
  tidy_from b s = true ->
  Forall (fun c => is_control c = false /\ (isspace c = true -> c = 32)) s.
Proof.
  induction s as [|c s IH]; intros b H; [constructor|].
  cbn [tidy_from] in H. destruct (c =? 32) eqn:E.
  - apply andb_true_iff in H. destruct H as [_ H].
    apply Z.eqb_eq in E. subst c.
    constructor; [split; [reflexivity|auto]|exact (IH _ H)].
  - apply andb_true_iff in H. destruct H as [Hc H].
    destruct (word_char_plain c Hc) as [H1 H2].
    constructor; [split; [exact H1|congruence]|exact (IH _ H)].
Qed.

Lemma tidy_no_double_space a rest : forall b,
  tidy_from b (a ++ 32 :: 32 :: rest) = false.
Proof.
  induction a as [|c a IH]; intros b.
  - cbn. destruct b; reflexivity.
  - cbn [app tidy_from]. destruct (c =? 32); rewrite IH;
      apply andb_false_r.
Qed.

(** X21: What [sanitize_input] returns, for every input and every limit: no
    control character (tab, newline and carriage return included) and no
    whitespace other than the plain space; no two spaces in a row and no
    space in front; never more characters than the input had, and at most
    [max_length] of them when the limit is not negative.  The call never
    raises and writes to no table. *)
Theorem sanitize_input_output x m w :
  exists r w',
    Utils.sanitize_input x m w = (Return r, w')
    /\ users w' = users w /\ sessions w' = sessions w
    /\ Forall (fun c => is_control c = false
                        /\ (isspace c = true -> c = 32)) r
    /\ (forall a b, r <> a ++ [32; 32] ++ b)
    /\ (forall b, r <> 32 :: b)
    /\ len r <= len x
    /\ (0 <= m -> len r <= m).
Proof.
  destruct (sanitize_input_run x m w) as (w' & H & Hu & Hs).
  exists (sanitized x m), w'.
  pose proof (sanitized_tidy x m) as Ht.
  split; [exact H|]. split; [exact Hu|]. split; [exact Hs|].
  split; [exact (tidy_chars _ _ Ht)|]. split; [|split; [|split]].
  - intros a b E. rewrite E in Ht.
    change (a ++ [32; 32] ++ b) with (a ++ 32 :: 32 :: b) in Ht.
    rewrite (tidy_no_double_space a b true) in Ht. discriminate.
  - intros b E. rewrite E in Ht. discriminate.
  - unfold len. pose proof (sanitized_length x m). lia.
  - apply sanitized_within.
Qed.

Lemma sanitize_input_output_witness :
  exists r w',
    Utils.sanitize_input (lit "  too   long  ") 5 Demo.empty_world
      = (Return r, w')
    /\ len r <= 5.
Proof.
  destruct (sanitize_input_output (lit "  too   long  ") 5 Demo.empty_world)
    as (r & w' & H & _ & _ & _ & _ & _ & _ & Hm).
  exists r, w'. split; [exact H|]. apply Hm. lia.
Defined.

(** X22: The inputs that [sanitize_input] hands back unchanged are the empty
    string and the texts that are already tidy (words of visible
    characters separated by single spaces, no space at either end) and
    fit the limit; for these it also writes no log record. *)
Theorem sanitize_input_unchanged x m w :
  (fst (Utils.sanitize_input x m w) = Return x
   <-> x = [] \/ (tidy_from true x = true /\ ends_with_space x = false
                  /\ len x <= m))
  /\ (fst (Utils.sanitize_input x m w) = Return x ->
      Utils.sanitize_input x m w = (Return x, w)).
Proof.
  assert (x = [] \/ (tidy_from true x = true /\ ends_with_space x = false
                     /\ len x <= m) ->
          Utils.sanitize_input x m w = (Return x, w)) as Hfix.
  { intros [->|(Ht & He & Hl)]; [reflexivity|].
    unfold Utils.sanitize_input.
    destruct (is_empty x) eqn:Ex.
    { apply is_empty_true in Ex. subst x. reflexivity. }
    fold (normalized x). rewrite (normalized_fixed x Ht He).
    replace (m <? len x) with false by (symmetry; apply Z.ltb_ge; exact Hl).
    run. rewrite str_eqb_refl. reflexivity. }
  assert (fst (Utils.sanitize_input x m w) = Return x ->
          x = [] \/ (tidy_from true x = true /\ ends_with_space x = false
                     /\ len x <= m)) as Hconv.
  { destruct (sanitize_input_run x m w) as (w' & -> & _). cbn [fst].
    intros H. injection H as H.
    destruct (is_empty x) eqn:Ex; [left; apply is_empty_true; exact Ex|].
    right. pose proof (sanitized_tidy x m) as Ht. rewrite H in Ht.
    split; [exact Ht|].
    unfold sanitized in H. rewrite Ex in H.
    pose proof (normalized_length x) as Hn.
    destruct (m <? len (normalized x)) eqn:El.
    - exfalso. apply Z.ltb_lt in El.
      assert (List.length (slice_to (normalized x) m)
              < List.length (normalized x))%nat as Hlt.
      { unfold slice_to. destruct (m <? 0)%Z eqn:Em; rewrite length_firstn.
        - apply Z.ltb_lt in Em. unfold len.
          destruct (normalized x) as [|c n].
          + rewrite <- H in Ex. unfold slice_to in Ex.
            destruct (m <? 0); rewrite firstn_nil in Ex; discriminate.
          + cbn [List.length]. lia.
        - apply Z.ltb_ge in Em. unfold len in El. lia. }
      rewrite H in Hlt. lia.
    - apply Z.ltb_ge in El.
      pose proof (proj2 (normalized_tidy x)) as Hen.
      rewrite H in Hen, El. split; assumption. }
  split; [split; [exact Hconv|]|].
  - intros H. rewrite (Hfix H). reflexivity.
  - intros H. apply Hfix, Hconv, H.
Qed.

Lemma sanitize_input_unchanged_witness :
  tidy_from true (lit "Hello World") = true
  /\ ends_with_space (lit "Hello World") = false
  /\ len (lit "Hello World") <= 1000
  /\ Utils.sanitize_input (lit "Hello World") 1000 Demo.empty_world
     = (Return (lit "Hello World"), Demo.empty_world).
Proof.
  assert (tidy_from true (lit "Hello World") = true) as Ht
    by (vm_compute; reflexivity).
  assert (ends_with_space (lit "Hello World") = false) as He
    by (vm_compute; reflexivity).
  assert (len (lit "Hello World") <= 1000) as Hl
    by (vm_compute; discriminate).
  split; [exact Ht|]. split; [exact He|]. split; [exact Hl|].
  destruct (sanitize_input_unchanged (lit "Hello World") 1000
              Demo.empty_world) as [Hiff Hsame].
  apply Hsame, Hiff. right. auto.
Defined.

Lemma is_safe_field_In k :
  Activity.is_safe_field k = true <-> In k Activity.safe_fields.
Proof.
  unfold Activity.is_safe_field. rewrite existsb_exists. split.
  - intros (y & Hy & He). apply str_eqb_eq in He. subst y. exact Hy.
  - intros H. exists k. split; [exact H|apply str_eqb_refl].
Qed.

(** X23: [log_activity] never raises and writes to no table.  With a user id
    that is not positive, or an action that is empty or longer than 100
    characters, it emits no activity record (only a warning).  Otherwise
    it emits exactly one record, whose context holds precisely the entries
    of the given context whose key is one of the five safe fields and
    whose value is a string, a number or a boolean; an entry under
    ["password"] is never part of it. *)
Theorem log_activity_records uid action ctx w xs :
  exists w' xs',
    Activity.log_activity uid action ctx (w, xs) = (Return tt, (w', xs'))
    /\ users w' = users w /\ sessions w' = sessions w
    /\ (uid <= 0 \/ action = [] \/ 100 < len action -> xs' = xs)
    /\ (0 < uid -> action <> [] -> len action <= 100 ->
        exists c,
          xs' = {| Activity.x_user_id := uid; Activity.x_action := action;
                   Activity.x_context := c |} :: xs
          /\ (forall k v,
                In (k, v) c <->
                (exists d, ctx = Some d /\ In (k, v) d)
                /\ In k Activity.safe_fields
                /\ Activity.is_scalar v = true)
          /\ (forall v, ~ In (lit "password", v) c)).
Proof.
  unfold Activity.log_activity.
  destruct (uid <=? 0) eqn:Eu.
  { run. apply Z.leb_le in Eu. eexists. eexists.
    split; [reflexivity|]. cbn. repeat split. intros H. lia. }
  apply Z.leb_gt in Eu.
  destruct (is_empty action || (100 <? len action)) eqn:Ea.
  { run. eexists. eexists. split; [reflexivity|]. cbn. repeat split.
    intros _ Hne Hl. exfalso.
    apply orb_true_iff in Ea. destruct Ea as [Ea|Ea].
    - apply is_empty_true in Ea. contradiction.
    - apply Z.ltb_lt in Ea. lia. }
  apply orb_false_iff in Ea. destruct Ea as [Hne Hl].
  apply is_empty_false in Hne. apply Z.ltb_ge in Hl.
  unfold Activity.logger_info_extra. run.
  eexists. eexists. split; [reflexivity|]. cbn.
  split; [reflexivity|]. split; [reflexivity|].
  split; [intros [H|[H|H]]; [lia|contradiction|lia]|].
  intros _ _ _. eexists. split; [reflexivity|].
  assert (forall k v,
            In (k, v) match ctx with
                      | None | Some [] => []
                      | Some c =>
                          filter (fun kv => Activity.is_safe_field (fst kv)
                                            && Activity.is_scalar (snd kv)) c
                      end <->
            (exists d, ctx = Some d /\ In (k, v) d)
            /\ In k Activity.safe_fields /\ Activity.is_scalar v = true)
    as Hin.
  { intros k v. destruct ctx as [[|kv c]|].
    - split; [intros []|]. intros ((d & Hd & Hi) & _).
      injection Hd as <-. exact Hi.
    - rewrite filter_In, andb_true_iff, is_safe_field_In. cbn [fst snd].
      split.
      + intros (Hi & Hk & Hv). split; [eauto|]. auto.
      + intros ((d & Hd & Hi) & Hk & Hv). injection Hd as <-. auto.
    - split; [intros []|]. intros ((d & Hd & _) & _). discriminate. }
  split; [exact Hin|].
  intros v Hv. apply Hin in Hv. destruct Hv as (_ & Hk & _).
  cbn in Hk. repeat (destruct Hk as [Hk|Hk]; [discriminate Hk|]).
  exact Hk.
Qed.

Lemma log_activity_records_witness :
  exists w' c,
    Activity.log_activity 123 (lit "test_action") (Some Sample.context)
      (Demo.empty_world, [])
    = (Return tt,
       (w', [{| Activity.x_user_id := 123;
                Activity.x_action := lit "test_action";
                Activity.x_context := c |}]))
    /\ In (lit "ip", Activity.VStr (lit "192.168.1.1")) c
    /\ ~ In (lit "password", Activity.VStr (lit "should_not_be_logged")) c.
Proof.
  destruct (log_activity_records 123 (lit "test_action")
              (Some Sample.context) Demo.empty_world [])
    as (w' & xs' & H & _ & _ & _ & Hrec).
  destruct Hrec as (c & -> & Hin & Hpw).
  - reflexivity.
  - discriminate.
  - vm_compute. discriminate.
  - exists w', c. split; [exact H|]. split; [|apply Hpw].
    apply Hin. split; [|split; [|reflexivity]].
    + exists Sample.context. split; [reflexivity|left; reflexivity].
    + left. reflexivity.
Defined.
